(** * Spyral: the phase drivers of the trajectory reconstruction pipeline

    A shallow embedding of the four phase drivers of the repository

    - [src/spyral/phase_pointcloud.py]  (traces to point clouds),
    - [src/pcutils/phase_2.py]          (point clouds to clusters),
    - [src/spyral/phase_solve.py]       (clusters and estimates to fits),
    - [src/spyral/phase_4_interp.py]    (the earlier form of the solve phase),

    together with the properties the specification states about them.

    Conventions.
    - Python [int] is [Z]; a finite [float64] is the rational it denotes
      ([Q]); only comparisons of floats are used below, never rounding.
    - An HDF5 group is a finite map from the integer that is formatted into
      the member name ([event_{idx}], [cluster_{cidx}], [cloud_{idx}],
      [evt{idx}_data], [evt{idx}_1903]) to the member: the formatting is
      injective, so the integer is the key.
    - A Python exception is the left summand of [result].
    - A polars query is taken with what polars leaves open: [polars_gated]
      relates the estimates to every table the gating query may return,
      in any row order; [estimates_gated] is the table with the rows in
      descending polar angle, and [phase_solve_gated] and
      [phase_4_interp_gated] are the drivers from the point where the
      table has been returned.
    - Routines the drivers import from modules outside the four files
      ([clusterize], the [FribEvent] methods, the optimiser, ...) are the
      fields of a class the driver is parameterised by; [join_clusters]
      and [solve_physics_interp], about which the specification speaks,
      are in addition modelled from its text. *)

From Stdlib Require Import QArith.
From stdpp Require Import gmap list sorting strings.

Open Scope Z_scope.

(** ** Exceptions and the phase monad *)

(** The member and attribute names the drivers build. *)
Inductive Name : Type :=
| name_get | name_frib | name_evt | name_scaler | name_cluster
| name_label | name_cloud
| name_event_ (idx : Z)        (* f"event_{idx}" *)
| name_cluster_ (cidx : Z)     (* f"cluster_{cidx}" *)
| name_cloud_ (idx : Z).       (* f"cloud_{idx}" *)

Inductive Exn : Type :=
| KeyError (name : Name)       (* h5py: indexing with an absent name *)
| ValueError (name : Name)     (* h5py: creating a member that exists,
                                  indexing a dataset by a member name *)
| AttributeError               (* attribute access on [None] *)
| TypeError                    (* subscripting [None] *)
| IndexError.                  (* index past the end of a dataset *)

(** A phase driver runs over the state [St] of everything it can change
    (files, queue, log, its own loop counters) and either returns or stops
    at an exception; the state reached is kept in both cases. *)
Definition M (St A : Type) : Type := St -> St * (Exn + A).

Definition ret {St A} (a : A) : M St A := fun s => (s, inr a).

Definition bind {St A B} (m : M St A) (k : A -> M St B) : M St B :=
  fun s =>
    match m s with
    | (s', inr a) => k a s'
    | (s', inl e) => (s', inl e)
    end.

Definition raise {St A} (e : Exn) : M St A := fun s => (s, inl e).
Definition gets {St A} (f : St -> A) : M St A := fun s => (s, inr (f s)).
Definition modify {St} (f : St -> St) : M St unit := fun s => (f s, inr tt).

Notation "'do' x <- m ; k" := (bind m (fun x => k))
  (at level 10, x name, m at level 100, k at level 200).
Notation "m ;; k" := (bind m (fun _ => k))
  (at level 100, k at level 200, right associativity).

(** [for x in l: body(x)] *)
Fixpoint for_each {St X} (body : X -> M St unit) (l : list X) : M St unit :=
  match l with
  | [] => ret tt
  | x :: rest => body x ;; for_each body rest
  end.

(** Python's [range(lo, hi)] and [enumerate(l)]. *)
Definition range (lo hi : Z) : list Z :=
  map (fun i => lo + Z.of_nat i) (seq 0 (Z.to_nat (hi - lo))).

Fixpoint enumerate_from {A} (n : Z) (l : list A) : list (Z * A) :=
  match l with
  | [] => []
  | x :: rest => (n, x) :: enumerate_from (n + 1) rest
  end.

Definition enumerate {A} (l : list A) : list (Z * A) := enumerate_from 0 l.

(** [len(l)] *)
Definition len {A} (l : list A) : Z := Z.of_nat (length l).

(** [int(0.01 * n)] for an integer [n]: the float product lies within one
    rounding of [n / 100], so truncation toward zero gives the integer
    quotient. *)
Definition int_percent (n : Z) : Z := Z.quot n 100.

(** Strict comparison of floats. *)
Definition Qltb (x y : Q) : bool := negb (Qle_bool y x).

(** A member of an HDF5 file is a group or a dataset; the drivers test
    [isinstance(node, h5.Group)]. *)
Inductive H5Node (G : Type) : Type :=
| IsGroup (g : G)
| IsDataset.
Arguments IsGroup {G} g.
Arguments IsDataset {G}.

(** ** Data shared by the phases *)

(** One row of a [float64] point array. *)
Definition Point : Type := list Q.
Definition Cloud : Type := list Point.

Record PointCloud : Type := mkPointCloud {
  event_number : Z;
  cloud : Cloud
}.

Record Cluster : Type := mkCluster {
  event : Z;
  label : Z;
  point_cloud : PointCloud
}.

Record ClusterParameters : Type := mkClusterParameters {
  min_write_size : Z
}.

(** The point file: group [cloud] with attributes [min_event], [max_event]
    and one dataset [cloud_{idx}] per event, which carries the four
    ion-chamber attributes. *)
Record CloudDataset : Type := mkCloudDataset {
  ic_amplitude : Q;
  ic_integral : Q;
  ic_centroid : Q;
  ic_multiplicity : Q;
  ds_data : Cloud
}.

Record CloudGroup : Type := mkCloudGroup {
  cloud_min_event : Z;
  cloud_max_event : Z;
  cloud_datasets : gmap Z CloudDataset
}.

(** The cluster file: group [cluster], one group [event_{idx}] per event
    with attribute [nclusters], one group [cluster_{cidx}] per cluster with
    attribute [label] and dataset [cloud].  An attribute that was never
    assigned is [None]. *)
Record ClusterNode : Type := mkClusterNode {
  label_attr : option Z;
  cloud_data : option Cloud
}.

Record EventNode : Type := mkEventNode {
  nclusters : option Z;
  members : gmap Z ClusterNode
}.

Record ClusterGroup : Type := mkClusterGroup {
  cluster_min_event : Z;
  cluster_max_event : Z;
  cluster_events : gmap Z EventNode
}.

(** ** The clustering phase: [src/pcutils/phase_2.py] *)

(** The routines [phase_2] imports from [core.point_cloud] and
    [core.clusterize]. *)
Class ClusterRoutines : Type := {
  load_cloud_from_hdf5_data : Cloud -> Z -> PointCloud;
  clusterize : PointCloud -> ClusterParameters -> list Cluster;
  join_clusters : list Cluster -> ClusterParameters -> list Cluster;
  cleanup_clusters : list Cluster -> ClusterParameters -> list Cluster
}.

(** What the loop of [phase_2] can change: its counters, the progress
    lines it prints (one per value of [flush_count]), the event groups of
    the cluster file, and the record of the clouds it loaded and handed
    to [clusterize]. The two lines printed whatever the range (lines 22
    and 65) and the creation of the cluster file, its group [cluster] and
    the attributes of the group (lines 13 and 18-20) are not recorded. *)
Record P2State : Type := mkP2State {
  p2_count : Z;
  p2_flush_count : Z;
  p2_stdout : list Z;
  p2_loaded : list PointCloud;
  p2_clusterized : list PointCloud;
  p2_events : gmap Z EventNode
}.

Definition p2_init : P2State := mkP2State 0 0 [] [] [] ∅.

Definition p2_set_events (f : gmap Z EventNode -> gmap Z EventNode)
  (s : P2State) : P2State :=
  mkP2State (p2_count s) (p2_flush_count s) (p2_stdout s) (p2_loaded s)
            (p2_clusterized s) (f (p2_events s)).

(** Lines 31-35: the progress counter. *)
Definition p2_tick (flush_val : Z) (s : P2State) : P2State :=
  if flush_val <? p2_count s
  then mkP2State (0 + 1) (p2_flush_count s + 1)
                 (p2_stdout s ++ [p2_flush_count s + 1])
                 (p2_loaded s) (p2_clusterized s) (p2_events s)
  else mkP2State (p2_count s + 1) (p2_flush_count s) (p2_stdout s)
                 (p2_loaded s) (p2_clusterized s) (p2_events s).

Definition p2_note_loaded (pc : PointCloud) (s : P2State) : P2State :=
  mkP2State (p2_count s) (p2_flush_count s) (p2_stdout s)
            (p2_loaded s ++ [pc]) (p2_clusterized s) (p2_events s).

Definition p2_note_clusterized (pc : PointCloud) (s : P2State) : P2State :=
  mkP2State (p2_count s) (p2_flush_count s) (p2_stdout s) (p2_loaded s)
            (p2_clusterized s ++ [pc]) (p2_events s).

(** [cluster_group.create_group(f'event_{idx}')] *)
Definition create_event_group (idx : Z) : M P2State unit :=
  do evs <- gets p2_events;
  match evs !! idx with
  | Some _ => raise (ValueError (name_event_ idx))
  | None => modify (p2_set_events (insert idx (mkEventNode None ∅)))
  end.

(** [cluster_event_group.attrs['nclusters'] = n] *)
Definition set_nclusters (idx n : Z) : M P2State unit :=
  modify (p2_set_events
            (alter (fun ev => mkEventNode (Some n) (members ev)) idx)).

(** Lines 59-61: [create_group(f'cluster_{cidx}')], its [label] attribute
    and its [cloud] dataset, inside the group of event [idx]. *)
Definition write_cluster (idx : Z) (entry : Z * Cluster) : M P2State unit :=
  let (cidx, cluster) := entry in
  do evs <- gets p2_events;
  match evs !! idx with
  | None => raise (KeyError (name_event_ idx))
  | Some ev =>
      match members ev !! cidx with
      | Some _ => raise (ValueError (name_cluster_ cidx))
      | None =>
          modify (p2_set_events
            (alter (fun ev => mkEventNode (nclusters ev)
                      (<[cidx := mkClusterNode (Some (label cluster))
                                   (Some (cloud (point_cloud cluster)))]>
                         (members ev))) idx))
      end
  end.

Section Phase2.
Context `{ClusterRoutines}.
Variable cloud_group : CloudGroup.
Variable cluster_params : ClusterParameters.

(** The body of the loop over [idx], lines 30-61. *)
Definition phase_2_event (flush_val : Z) (idx : Z) : M P2State unit :=
  modify (p2_tick flush_val) ;;
  match cloud_datasets cloud_group !! idx with
  | None => ret tt                                        (* continue *)
  | Some cloud_data =>
      let pc := load_cloud_from_hdf5_data (ds_data cloud_data) idx in
      modify (p2_note_loaded pc) ;;
      if len (cloud pc) <? min_write_size cluster_params
      then ret tt                                         (* continue *)
      else
        modify (p2_note_clusterized pc) ;;
        let clusters := clusterize pc cluster_params in
        let joined := join_clusters clusters cluster_params in
        let cleaned := cleanup_clusters joined cluster_params in
        create_event_group idx ;;
        set_nclusters idx (len cleaned) ;;
        for_each (write_cluster idx) (enumerate cleaned)
  end.

Definition phase_2_loop : M P2State unit :=
  let min_event := cloud_min_event cloud_group in
  let max_event := cloud_max_event cloud_group in
  let flush_val := int_percent (max_event - min_event) in
  for_each (phase_2_event flush_val) (range min_event (max_event + 1)).
End Phase2.

(** [phase_2]: the point file is given by its [cloud] member
    ([point_file.get('cloud')], [None] when absent); the result is the
    final state and, if one stopped the run, the exception. The cluster
    file written is [cluster_file_of] the final state. *)
Definition phase_2 `{ClusterRoutines} (point_cloud_group : option CloudGroup)
  (cluster_params : ClusterParameters) : P2State * (Exn + unit) :=
  match point_cloud_group with
  | None => (p2_init, inl AttributeError)
  | Some cloud_group => phase_2_loop cloud_group cluster_params p2_init
  end.

Definition cluster_file_of (cloud_group : CloudGroup) (s : P2State)
  : ClusterGroup :=
  mkClusterGroup (cloud_min_event cloud_group) (cloud_max_event cloud_group)
                 (p2_events s).

(** ** Messages to the parent process and to the log *)

Inductive Phase : Type := WAIT | CLOUD | CLUSTER | ESTIMATE | SOLVE.

Record StatusMessage : Type := mkStatusMessage {
  sm_run : Z;
  sm_phase : Phase;
  sm_progress : Z
}.

Inductive Level : Type := INFO | WARN | ERROR.

(** The texts the drivers log, one constructor per f-string. *)
Inductive LogText : Type :=
| RunDoesNotExist (run : Z)
| GetGroupMissing (run : Z)
| FribGroupMissing (run : Z)
| FribEvtGroupMissing (run : Z)
| FribScalerGroupMissing (run : Z)
| Phase1Complete
| ParticleIDDoesNotExist
| TargetNotCorrectFormat
| ClustersOrEstimatesMissing (run : Z)
| ClusterGroupMissing (run : Z)
| NoEventsWithinPID (run : Z)
| Phase4Complete.

Definition LogRecord : Type := Level * LogText.

(** ** The point-cloud phase: [src/spyral/phase_pointcloud.py] *)

Record DetectorParameters : Type := mkDetectorParameters {
  do_garfield_correction : bool;
  micromegas_time_bucket : Q;
  window_time_bucket : Q;
  detector_length : Q;
  get_frequency : Q
}.

Record FribParameters : Type := mkFribParameters {
  correct_ic_time : bool;
  frib_ic_multiplicity : Q
}.

(** The fields of an ion-chamber peak that the driver stores. *)
Record Peak : Type := mkPeak {
  amplitude : Q;
  integral : Q;
  centroid : Q
}.

(** Raw trace arrays as stored by the merger. *)
Definition RawData : Type := list (list Z).

(** The members of the trace file the driver touches. [tf_meta] is the
    dataset [meta/meta] ([None]: there is no group [meta]). *)
Record FribGroup : Type := mkFribGroup {
  frib_evt : option (H5Node (gmap Z RawData));
  frib_scaler : option (H5Node RawData)
}.

Record TraceFile : Type := mkTraceFile {
  tf_meta : option (list Z);
  tf_get : option (H5Node (gmap Z RawData));
  tf_frib : option (H5Node FribGroup)
}.

(** [get_event_range]: the first and the last event number are the
    entries 0 and 2 of the [meta] dataset. *)
Definition get_event_range (trace_file : TraceFile) : Exn + (Z * Z) :=
  match tf_meta trace_file with
  | None => inl AttributeError
  | Some meta_data =>
      match meta_data !! 0%nat, meta_data !! 2%nat with
      | Some first, Some last => inr (first, last)
      | _, _ => inl IndexError
      end
  end.

(** The routines [phase_pointcloud] imports: the trace analysis
    ([GetEvent] followed by [PointCloud.load_cloud_from_get_event]), the
    methods of [FribEvent], the z calibration of a cloud (with the
    optional [ic_correction] argument) and the electron corrector. *)
Class PointcloudRoutines : Type := {
  ElectronCorrector : Type;
  FribEvent : Type;
  create_electron_corrector : ElectronCorrector;
  cloud_from_get_event : RawData -> Z -> Cloud;
  make_frib_event : RawData -> Z -> FribParameters -> FribEvent;
  get_good_ic_peak : FribEvent -> FribParameters -> option (Q * Peak);
  frib_correct_ic_time : FribEvent -> Peak -> FribParameters -> Q -> Q;
  get_ic_multiplicity : FribEvent -> FribParameters -> Q;
  get_triggering_ic_peak : FribEvent -> FribParameters -> option Peak;
  calibrate_z_position :
    Q -> Q -> Q -> option ElectronCorrector -> option Q -> Cloud -> Cloud
}.

(** What one run of [phase_pointcloud] can change. [p1_file] is the point
    file ([None] until it is opened for writing, then its [cloud] group
    once created); [p1_calibrations] records, per event, the
    [ic_correction] argument of the z calibration that was applied. *)
Record P1State : Type := mkP1State {
  p1_count : Z;
  p1_queue : list StatusMessage;
  p1_log : list LogRecord;
  p1_opened : bool;
  p1_datasets : gmap Z CloudDataset;
  p1_calibrations : list (Z * option Q);
  p1_scalers_done : bool
}.

Definition p1_init : P1State := mkP1State 0 [] [] false ∅ [] false.

Definition p1_put_log (r : LogRecord) (s : P1State) : P1State :=
  mkP1State (p1_count s) (p1_queue s) (p1_log s ++ [r]) (p1_opened s)
            (p1_datasets s) (p1_calibrations s) (p1_scalers_done s).

Definition p1_open_file (s : P1State) : P1State :=
  mkP1State (p1_count s) (p1_queue s) (p1_log s) true ∅
            (p1_calibrations s) (p1_scalers_done s).

Definition p1_set_datasets (f : gmap Z CloudDataset -> gmap Z CloudDataset)
  (s : P1State) : P1State :=
  mkP1State (p1_count s) (p1_queue s) (p1_log s) (p1_opened s)
            (f (p1_datasets s)) (p1_calibrations s) (p1_scalers_done s).

Definition p1_note_calibration (idx : Z) (ic : option Q) (s : P1State)
  : P1State :=
  mkP1State (p1_count s) (p1_queue s) (p1_log s) (p1_opened s)
            (p1_datasets s) (p1_calibrations s ++ [(idx, ic)])
            (p1_scalers_done s).

Definition p1_scalers (s : P1State) : P1State :=
  mkP1State (p1_count s) (p1_queue s) (p1_log s) (p1_opened s)
            (p1_datasets s) (p1_calibrations s) true.

(** Lines 131-134: the progress counter. *)
Definition p1_tick (run flush_val : Z) (s : P1State) : P1State :=
  if flush_val <? p1_count s
  then mkP1State (0 + 1) (p1_queue s ++ [mkStatusMessage run CLOUD 1])
                 (p1_log s) (p1_opened s) (p1_datasets s)
                 (p1_calibrations s) (p1_scalers_done s)
  else mkP1State (p1_count s + 1) (p1_queue s) (p1_log s) (p1_opened s)
                 (p1_datasets s) (p1_calibrations s) (p1_scalers_done s).

(** [np.zeros(shape)]: what a dataset created from a shape holds. *)
Definition zeros_like (c : Cloud) : Cloud := map (map (fun _ => 0%Q)) c.

Definition sentinel : Q := (-1)%Q.

(** Lines 147-155: [create_dataset] and the default IC attributes. *)
Definition create_cloud_dataset (pc : PointCloud) : M P1State unit :=
  do dss <- gets p1_datasets;
  match dss !! event_number pc with
  | Some _ => raise (ValueError (name_cloud_ (event_number pc)))
  | None =>
      modify (p1_set_datasets
        (insert (event_number pc)
           (mkCloudDataset sentinel sentinel sentinel sentinel
                           (zeros_like (cloud pc)))))
  end.

(** The four assignments to the IC attributes of [pc_dataset]. *)
Definition set_ic_attrs (name : Z) (peak : Peak) (mult : Q) : M P1State unit :=
  modify (p1_set_datasets
    (alter (fun ds => mkCloudDataset (amplitude peak) (integral peak)
                        (centroid peak) mult (ds_data ds)) name)).

(** [pc_dataset[:] = pc.cloud] *)
Definition write_cloud (name : Z) (c : Cloud) : M P1State unit :=
  modify (p1_set_datasets
    (alter (fun ds => mkCloudDataset (ic_amplitude ds) (ic_integral ds)
                        (ic_centroid ds) (ic_multiplicity ds) c) name)).

Section PhasePointcloud.
Context `{PointcloudRoutines}.
Variable run : Z.
Variable frib_params : FribParameters.
Variable detector_params : DetectorParameters.

(** [pc.calibrate_z_position(...)], with or without [ic_correction];
    returns the calibrated cloud. *)
Definition calibrate (corrector : option ElectronCorrector)
  (pc : PointCloud) (ic_correction : option Q) : M P1State Cloud :=
  modify (p1_note_calibration (event_number pc) ic_correction) ;;
  ret (calibrate_z_position
         (micromegas_time_bucket detector_params)
         (window_time_bucket detector_params)
         (detector_length detector_params)
         corrector ic_correction (cloud pc)).

(** The body of the loop over [idx], lines 131-233. The cloud built from
    [GetEvent(event_data, idx, ...)] carries the event number [idx]. *)
Definition phase_pointcloud_event (flush_val : Z)
  (corrector : option ElectronCorrector)
  (event_group frib_evt_group : gmap Z RawData) (idx : Z)
  : M P1State unit :=
  modify (p1_tick run flush_val) ;;
  match event_group !! idx with
  | None => ret tt                                        (* continue *)
  | Some event_data =>
      let pc := mkPointCloud idx (cloud_from_get_event event_data idx) in
      let name := event_number pc in
      create_cloud_dataset pc ;;
      match frib_evt_group !! idx with
      | None =>
          do c <- calibrate corrector pc None;
          write_cloud name c                              (* continue *)
      | Some frib_data =>
          let frib_event := make_frib_event frib_data idx frib_params in
          if correct_ic_time frib_params then
            match get_good_ic_peak frib_event frib_params with
            | None =>
                do c <- calibrate corrector pc None;
                write_cloud name c                        (* continue *)
            | Some (mult, peak) =>
                set_ic_attrs name peak mult ;;
                let ic_cor :=
                  frib_correct_ic_time frib_event peak frib_params
                    (get_frequency detector_params) in
                do c <- (if Qltb ic_cor 512
                         then calibrate corrector pc (Some ic_cor)
                         else calibrate corrector pc None);
                write_cloud name c
            end
          else
            do c <- calibrate corrector pc None;
            let ic_mult := get_ic_multiplicity frib_event frib_params in
            let ic_peak := get_triggering_ic_peak frib_event frib_params in
            (match ic_peak with
             | Some p =>
                 if Qle_bool ic_mult (frib_ic_multiplicity frib_params)
                 then set_ic_attrs name p ic_mult
                 else ret tt
             | None => ret tt
             end) ;;
            write_cloud name c
      end
  end.

(** [phase_pointcloud]; [trace_file] is [None] when the trace path does
    not exist. *)
Definition phase_pointcloud (trace_file : option TraceFile)
  : M P1State unit :=
  match trace_file with
  | None => modify (p1_put_log (WARN, RunDoesNotExist run))
  | Some tf =>
      modify p1_open_file ;;
      match get_event_range tf with
      | inl e => raise e
      | inr (min_event, max_event) =>
          let corrector :=
            if do_garfield_correction detector_params
            then Some create_electron_corrector else None in
          match tf_get tf with
          | None => raise (KeyError name_get)
          | Some IsDataset => modify (p1_put_log (ERROR, GetGroupMissing run))
          | Some (IsGroup event_group) =>
          match tf_frib tf with
          | None => raise (KeyError name_frib)
          | Some IsDataset => modify (p1_put_log (ERROR, FribGroupMissing run))
          | Some (IsGroup frib_group) =>
          match frib_evt frib_group with
          | None => raise (KeyError name_evt)
          | Some IsDataset =>
              modify (p1_put_log (ERROR, FribEvtGroupMissing run))
          | Some (IsGroup frib_evt_group) =>
          match frib_scaler frib_group with
          | None => raise (KeyError name_scaler)
          | Some _ =>
              let flush_val := int_percent (max_event - min_event) in
              for_each
                (phase_pointcloud_event flush_val corrector event_group
                   frib_evt_group)
                (range min_event (max_event + 1)) ;;
              modify p1_scalers ;;
              modify (p1_put_log (INFO, Phase1Complete))
          end end end end
      end
  end.
End PhasePointcloud.

(** ** The solve phase: [src/spyral/phase_solve.py], [src/spyral/phase_4_interp.py] *)

Record SolverParameters : Type := mkSolverParameters {
  ic_min_val : Q;
  ic_max_val : Q;
  interp_file_name : string
}.

(** A nucleus by its proton and mass numbers. *)
Definition Nucleus : Type := (Z * Z)%type.

(** The particle-identification gate: its nucleus and the test
    [cut.is_cols_inside] on a ([dEdx], [brho]) pair. *)
Record ParticleID : Type := mkParticleID {
  nucleus : Nucleus;
  is_cols_inside : Q -> Q -> bool
}.

(** What [load_target] can return; a target is named by its data file. *)
Inductive Target : Type :=
| GasTarget (gas : string)
| SolidTarget (solid : string)
| NoTarget.

(** One row of the estimate table (the columns the driver reads). *)
Record EstimateRow : Type := mkEstimateRow {
  est_event : Z;
  est_cluster_index : Z;
  est_dEdx : Q;
  est_brho : Q;
  est_polar : Q;
  est_azimuthal : Q;
  est_vertex_x : Q;
  est_vertex_y : Q;
  est_vertex_z : Q;
  est_ic_amplitude : Q
}.

Inductive Direction : Type := NONE | FORWARD | BACKWARD.

(** [Guess(polar, azimuthal, brho, vertex_x, vertex_y, vertex_z[, direction])];
    the earlier driver passes no direction. *)
Record Guess : Type := mkGuess {
  g_polar : Q;
  g_azimuthal : Q;
  g_brho : Q;
  g_vertex_x : Q;
  g_vertex_y : Q;
  g_vertex_z : Q;
  g_direction : option Direction
}.

(** The fitted columns of a result row. *)
Record FitValues : Type := mkFitValues {
  fit_vertex_x : Q;  fit_sigma_vx : Q;
  fit_vertex_y : Q;  fit_sigma_vy : Q;
  fit_vertex_z : Q;  fit_sigma_vz : Q;
  fit_brho : Q;      fit_sigma_brho : Q;
  fit_polar : Q;     fit_sigma_polar : Q;
  fit_azimuthal : Q; fit_sigma_azimuthal : Q;
  fit_redchisq : Q
}.

(** One row of [results]: the dictionary of sixteen columns, all appended
    to in step, is the list of its rows. *)
Record FitRow : Type := mkFitRow {
  row_event : Z;
  row_cluster_index : Z;
  row_cluster_label : Z;
  row_values : FitValues
}.

(** Where the track table is looked up: by nucleus and target
    ([phase_solve]) or by configured file name ([phase_4_interp]). *)
Inductive TrackPath : Type :=
| TrackFor (n : Nucleus) (gas : string)
| TrackNamed (file : string).

(** The routines the solve drivers import: the interpolator and the
    optimiser behind [solve_physics_interp] ([None]: no fit was produced
    for the cluster). *)
Class SolveRoutines : Type := {
  Interpolator : Type;
  create_interpolator : TrackPath -> Interpolator;
  fit_trajectory :
    Cluster -> Guess -> Nucleus -> Interpolator ->
    option DetectorParameters -> option FitValues
}.

(** [Cluster(event, label, data)] *)
Definition Cluster_of_data (ev lbl : Z) (data : Cloud) : Cluster :=
  mkCluster ev lbl (mkPointCloud ev data).

(** Modelled from the spec: [solve_physics_interp] of
    [solvers/solver_interp.py] is not among the sources. By sections 3 and
    6 of the specification a successfully fit cluster contributes one
    FitResult row holding the event id, the cluster index, the cluster
    label and the fitted values, and a cluster whose fit failed
    contributes none. *)
Definition solve_physics_interp `{SolveRoutines} (cluster_index : Z)
  (cluster : Cluster) (guess : Guess) (ion : Nucleus)
  (interpolator : Interpolator) (det_params : option DetectorParameters)
  (results : list FitRow) : list FitRow :=
  match fit_trajectory cluster guess ion interpolator det_params with
  | Some v =>
      results ++ [mkFitRow (event cluster) cluster_index (label cluster) v]
  | None => results
  end.

(** *** Gating: filter, sort by polar descending, one row per event *)

(** Lines 96-100 of [phase_solve.py]. *)
Definition passes_gate (pid : ParticleID) (sp : SolverParameters)
  (r : EstimateRow) : bool :=
  is_cols_inside pid (est_dEdx r) (est_brho r)
  && Qltb (ic_min_val sp) (est_ic_amplitude r)
  && Qltb (est_ic_amplitude r) (ic_max_val sp).

Definition polar_ge : relation EstimateRow :=
  fun a b => (est_polar b <= est_polar a)%Q.

#[export] Instance polar_ge_dec : RelDecision polar_ge.
Proof.
  intros a b. unfold polar_ge.
  destruct (Qle_bool (est_polar b) (est_polar a)) eqn:E.
  - left. by apply Qle_bool_iff.
  - right. intros Hle. apply Qle_bool_iff in Hle. congruence.
Defined.

(** [.sort("polar", descending=True)]. polars does not promise to keep
    the order of rows of equal polar angle; the stable merge sort used
    here is one of the arrangements it may give. *)
Definition sort_polar_descending : list EstimateRow -> list EstimateRow :=
  merge_sort polar_ge.

(** [.unique("event", keep="first")]: [seen] holds the events of the rows
    already kept. The call does not set [maintain_order], so polars fixes
    which row of an event is kept and not the order of the rows it
    returns; keeping the order of the input is one of the outcomes. *)
Fixpoint unique_event_first (seen : gset Z) (rows : list EstimateRow)
  : list EstimateRow :=
  match rows with
  | [] => []
  | r :: rest =>
      if decide (est_event r ∈ seen)
      then unique_event_first seen rest
      else r :: unique_event_first ({[est_event r]} ∪ seen) rest
  end.

Definition estimates_gated (pid : ParticleID) (sp : SolverParameters)
  (estimate_df : list EstimateRow) : list EstimateRow :=
  unique_event_first ∅
    (sort_polar_descending
       (filter (fun r => Is_true (passes_gate pid sp r)) estimate_df)).

(** [Guess(...)] from a gated row, lines 161-169. *)
Definition guess_of_row (direction : option Direction) (r : EstimateRow)
  : Guess :=
  mkGuess (est_polar r) (est_azimuthal r) (est_brho r)
          (est_vertex_x r) (est_vertex_y r) (est_vertex_z r) direction.

(** *** The driver *)

(** What the workspace holds for a run: the deserialised gate, the loaded
    target, and the two input files ([None]: the path does not exist).
    The cluster file is given by its member [cluster]. *)
Record SolveInputs : Type := mkSolveInputs {
  in_pid : option ParticleID;
  in_target : Target;
  in_cluster_file : option (option (H5Node (gmap Z EventNode)));
  in_estimates : option (list EstimateRow)
}.

Record SolverCall : Type := mkSolverCall {
  call_cluster_index : Z;
  call_cluster : Cluster;
  call_guess : Guess
}.

(** What one run of the solve phase can change: its counter, the queue,
    the log, the [results] dictionary, the result file ([None]: never
    written), and the record of the calls of [solve_physics_interp]. *)
Record SolveState : Type := mkSolveState {
  sv_count : Z;
  sv_queue : list StatusMessage;
  sv_log : list LogRecord;
  sv_calls : list SolverCall;
  sv_results : list FitRow;
  sv_result_file : option (list FitRow)
}.

Definition sv_init : SolveState := mkSolveState 0 [] [] [] [] None.

Definition sv_put_queue (m : StatusMessage) (s : SolveState) : SolveState :=
  mkSolveState (sv_count s) (sv_queue s ++ [m]) (sv_log s) (sv_calls s)
               (sv_results s) (sv_result_file s).

Definition sv_put_log (r : LogRecord) (s : SolveState) : SolveState :=
  mkSolveState (sv_count s) (sv_queue s) (sv_log s ++ [r]) (sv_calls s)
               (sv_results s) (sv_result_file s).

Definition sv_tick (run flush_val progress : Z) (s : SolveState)
  : SolveState :=
  if flush_val <? sv_count s
  then mkSolveState (0 + 1)
                    (sv_queue s ++ [mkStatusMessage run SOLVE progress])
                    (sv_log s) (sv_calls s) (sv_results s)
                    (sv_result_file s)
  else mkSolveState (sv_count s + 1) (sv_queue s) (sv_log s) (sv_calls s)
                    (sv_results s) (sv_result_file s).

Definition sv_solve (c : SolverCall) (f : list FitRow -> list FitRow)
  (s : SolveState) : SolveState :=
  mkSolveState (sv_count s) (sv_queue s) (sv_log s) (sv_calls s ++ [c])
               (f (sv_results s)) (sv_result_file s).

(** [pl.DataFrame(results).write_parquet(result_path)] *)
Definition sv_write_results (s : SolveState) : SolveState :=
  mkSolveState (sv_count s) (sv_queue s) (sv_log s) (sv_calls s)
               (sv_results s) (Some (sv_results s)).

(** [group[name]] on a finite map. *)
Definition getitem {St V} (name : Name) (o : option V) : M St V :=
  match o with
  | Some v => ret v
  | None => raise (KeyError name)
  end.

(** Lines 153-158: read the stored cluster of a gated row. *)
Definition read_cluster {St} (cluster_group : gmap Z EventNode)
  (r : EstimateRow) : M St Cluster :=
  let event := est_event r in
  do event_group <- getitem (name_event_ event) (cluster_group !! event);
  let cidx := est_cluster_index r in
  do local_cluster <- getitem (name_cluster_ cidx)
                        (members event_group !! cidx);
  do lbl <- getitem name_label (label_attr local_cluster);
  do data <- getitem name_cloud (cloud_data local_cluster);
  ret (Cluster_of_data event lbl data).

Section PhaseSolve.
Context `{SolveRoutines}.
Variable run : Z.
Variable solver_params : SolverParameters.

(** The body of the loop over the gated rows, shared by both drivers;
    they differ in the group they index, the progress value, the
    direction of the guess and the detector parameters. *)
Definition solve_row (flush_val progress : Z)
  (cluster_group : M SolveState (gmap Z EventNode))
  (direction : option Direction) (ion : Nucleus)
  (interpolator : Interpolator) (det_params : option DetectorParameters)
  (r : EstimateRow) : M SolveState unit :=
  modify (sv_tick run flush_val progress) ;;
  do group <- cluster_group;
  do cluster <- read_cluster group r;
  let cidx := est_cluster_index r in
  let guess := guess_of_row direction r in
  modify (sv_solve (mkSolverCall cidx cluster guess)
            (solve_physics_interp cidx cluster guess ion interpolator
               det_params)).

(** [phase_solve]. With fewer than 100 gated rows the progress value is
    [int((100.0 / n) * 100.0)], the integer quotient of 10000 by [n];
    otherwise it is [int(0.01 * 100.0)], which is 1. *)
Definition phase_solve (det_params : DetectorParameters)
  (inp : SolveInputs) : M SolveState unit :=
  match in_pid inp with
  | None =>
      modify (sv_put_queue (mkStatusMessage run WAIT 0)) ;;
      modify (sv_put_log (WARN, ParticleIDDoesNotExist))
  | Some pid =>
  match in_target inp with
  | SolidTarget _ | NoTarget =>
      modify (sv_put_queue (mkStatusMessage run WAIT 0)) ;;
      modify (sv_put_log (WARN, TargetNotCorrectFormat))
  | GasTarget target =>
  match in_cluster_file inp, in_estimates inp with
  | None, _ | _, None =>
      modify (sv_put_queue (mkStatusMessage run WAIT 0)) ;;
      modify (sv_put_log (WARN, ClustersOrEstimatesMissing run))
  | Some cluster_file, Some estimate_df =>
  match cluster_file with
  | None => raise (KeyError name_cluster)
  | Some IsDataset => modify (sv_put_log (ERROR, ClusterGroupMissing run))
  | Some (IsGroup cluster_group) =>
      let gated := estimates_gated pid solver_params estimate_df in
      if len gated =? 0 then
        modify (sv_put_queue (mkStatusMessage run WAIT 0)) ;;
        modify (sv_put_log (WARN, NoEventsWithinPID run))
      else
        let flush_val := if len gated <? 100 then 1
                         else int_percent (len gated) in
        let progress := if len gated <? 100 then Z.quot 10000 (len gated)
                        else 1 in
        let interpolator :=
          create_interpolator (TrackFor (nucleus pid) target) in
        for_each
          (solve_row flush_val progress (ret cluster_group) (Some NONE)
             (nucleus pid) interpolator (Some det_params))
          gated ;;
        modify sv_write_results ;;
        modify (sv_put_log (INFO, Phase4Complete))
  end end end end.

(** [phase_4_interp]: no target, no log; [cluster_file.get('cluster')]
    is not checked, so indexing it fails only when a row is read
    ([None] is not subscriptable, a dataset takes no member name). *)
Definition phase_4_interp (inp : SolveInputs) : M SolveState unit :=
  match in_pid inp with
  | None => modify (sv_put_queue (mkStatusMessage run WAIT 100))
  | Some pid =>
  match in_cluster_file inp, in_estimates inp with
  | None, _ | _, None =>
      modify (sv_put_queue (mkStatusMessage run WAIT 100))
  | Some cluster_file, Some estimate_df =>
      let cluster_group : M SolveState (gmap Z EventNode) :=
        match cluster_file with
        | None => raise TypeError
        | Some IsDataset => raise (ValueError name_cluster)
        | Some (IsGroup g) => ret g
        end in
      let gated := estimates_gated pid solver_params estimate_df in
      if len gated =? 0 then
        modify (sv_put_queue (mkStatusMessage run WAIT 100))
      else
        let flush_val := int_percent (len gated) in
        let interpolator :=
          create_interpolator (TrackNamed (interp_file_name solver_params)) in
        for_each
          (solve_row flush_val 1 cluster_group None (nucleus pid)
             interpolator None)
          gated ;;
        modify sv_write_results
  end end.
End PhaseSolve.

(** *** The drivers on the table the query returns *)

(** What the query of lines 95-106 of [phase_solve.py] (35-43 of
    [phase_4_interp.py]) may return on [estimate_df]. polars promises no
    order among rows of equal polar angle, so [sorted] is any arrangement
    of the accepted rows by descending polar angle; and [unique] is
    called without [maintain_order], so [gated] holds the first row of
    each event of [sorted], in any order. [estimates_gated] is one such
    table. *)
Definition polars_gated (pid : ParticleID) (sp : SolverParameters)
  (estimate_df sorted gated : list EstimateRow) : Prop :=
  sorted ≡ₚ filter (fun r => Is_true (passes_gate pid sp r)) estimate_df
  /\ StronglySorted polar_ge sorted
  /\ gated ≡ₚ unique_event_first ∅ sorted.

Section SolveGated.
Context `{SolveRoutines}.
Variable run : Z.
Variable solver_params : SolverParameters.

(** Lines 108-183 of [phase_solve.py]: what [phase_solve] does with the
    table [estimates_gated] once the query has returned it, the rows
    taken in the order of the table. *)
Definition phase_solve_gated (det_params : DetectorParameters)
  (pid : ParticleID) (target : string) (cluster_group : gmap Z EventNode)
  (gated : list EstimateRow) : M SolveState unit :=
  if len gated =? 0 then
    modify (sv_put_queue (mkStatusMessage run WAIT 0)) ;;
    modify (sv_put_log (WARN, NoEventsWithinPID run))
  else
    let flush_val := if len gated <? 100 then 1
                     else int_percent (len gated) in
    let progress := if len gated <? 100 then Z.quot 10000 (len gated)
                    else 1 in
    let interpolator :=
      create_interpolator (TrackFor (nucleus pid) target) in
    for_each
      (solve_row run flush_val progress (ret cluster_group) (Some NONE)
         (nucleus pid) interpolator (Some det_params))
      gated ;;
    modify sv_write_results ;;
    modify (sv_put_log (INFO, Phase4Complete)).

(** Lines 45-98 of [phase_4_interp.py], in the same way. *)
Definition phase_4_interp_gated (pid : ParticleID)
  (cluster_file : option (H5Node (gmap Z EventNode)))
  (gated : list EstimateRow) : M SolveState unit :=
  let cluster_group : M SolveState (gmap Z EventNode) :=
    match cluster_file with
    | None => raise TypeError
    | Some IsDataset => raise (ValueError name_cluster)
    | Some (IsGroup g) => ret g
    end in
  if len gated =? 0 then
    modify (sv_put_queue (mkStatusMessage run WAIT 100))
  else
    let flush_val := int_percent (len gated) in
    let interpolator :=
      create_interpolator (TrackNamed (interp_file_name solver_params)) in
    for_each
      (solve_row run flush_val 1 cluster_group None (nucleus pid)
         interpolator None)
      gated ;;
    modify sv_write_results.
End SolveGated.

(** ** The joiner of the clustering engine *)

Module Joiner.

(** Modelled from the spec: the pair test and the merge of
    [core/clusterize.py] are not among the sources. Section 4.1: two
    clusters are "judged to be fragments of a single physical track" by a
    test on the pair and the configuration, and are merged into one. *)
Class JoinCriterion : Type := {
  fragments : ClusterParameters -> Cluster -> Cluster -> bool;
  merge_clusters : Cluster -> Cluster -> Cluster
}.

(** A group of fragments: the first discovered and those joined to it. *)
Definition Group : Type := (Cluster * list Cluster)%type.

Definition group_members (g : Group) : list Cluster := fst g :: snd g.

Section Join.
Context `{JoinCriterion}.
Variable params : ClusterParameters.

(** The pair is judged in either order. *)
Definition joins (a b : Cluster) : bool :=
  fragments params a b || fragments params b a.

Definition touches (c : Cluster) (g : Group) : bool :=
  existsb (joins c) (group_members g).

(** Modelled from the spec: "Joining is transitive: if A joins B and B
    joins C, all three merge into one cluster."  A cluster that joins
    members of several groups unites them all; one that joins none opens
    a group of its own, after those already found. *)
Definition add_to_groups (groups : list Group) (c : Cluster)
  : list Group :=
  match List.filter (touches c) groups with
  | [] => groups ++ [(c, [])]
  | (first, rest) :: others =>
      (first, rest ++ flat_map group_members others ++ [c])
        :: List.filter (fun g => negb (touches c g)) groups
  end.

Definition group_fragments (clusters : list Cluster) : list Group :=
  fold_left add_to_groups clusters [].

Definition merge_group (g : Group) : Cluster :=
  fold_left merge_clusters (snd g) (fst g).

(** Modelled from the spec: one pass of [join_clusters] merges every
    group of fragments, in the order the groups were found ("merge
    order must be deterministic"). *)
Definition join_clusters_step (clusters : list Cluster) : list Cluster :=
  map merge_group (group_fragments clusters).

(** Passes are repeated until one merges nothing; every other pass
    removes a cluster, so [fuel] passes suffice for [fuel] clusters. *)
Fixpoint join_loop (fuel : nat) (clusters : list Cluster) : list Cluster :=
  match fuel with
  | O => clusters
  | S fuel' =>
      let joined := join_clusters_step clusters in
      if (length joined =? length clusters)%nat then joined
      else join_loop fuel' joined
  end.

(** Modelled from the spec: [join_clusters(clusters, params)] of
    [core/clusterize.py], which is not among the sources: merge
    fragments until "no further merges [are] possible". *)
Definition join_clusters (clusters : list Cluster) : list Cluster :=
  join_loop (length clusters) clusters.
End Join.

End Joiner.

(** ** Reference descriptions of what the drivers leave behind *)

Definition node_of_cluster (c : Cluster) : ClusterNode :=
  mkClusterNode (Some (label c)) (Some (cloud (point_cloud c))).

Definition add_members (m : gmap Z ClusterNode) (entries : list (Z * Cluster))
  : gmap Z ClusterNode :=
  fold_left (fun m e => <[fst e := node_of_cluster (snd e)]> m) entries m.

(** The group [event_{idx}] of an event whose cleaned clusters are
    [cleaned]. *)
Definition event_node_of (cleaned : list Cluster) : EventNode :=
  mkEventNode (Some (len cleaned)) (add_members ∅ (enumerate cleaned)).

Section Phase2Reference.
Context `{ClusterRoutines}.
Variable cloud_group : CloudGroup.
Variable cluster_params : ClusterParameters.

(** The cloud [phase_2] loads for event [idx], if the point file has
    data for it. *)
Definition loaded_cloud (idx : Z) : option PointCloud :=
  (fun d => load_cloud_from_hdf5_data (ds_data d) idx)
    <$> cloud_datasets cloud_group !! idx.

Definition big_enough (pc : PointCloud) : bool :=
  negb (len (cloud pc) <? min_write_size cluster_params).

(** [cleanup_clusters(join_clusters(clusterize(cloud)))] *)
Definition cleaned_clusters (pc : PointCloud) : list Cluster :=
  cleanup_clusters
    (join_clusters (clusterize pc cluster_params) cluster_params)
    cluster_params.

(** The event group expected for [idx], if any. *)
Definition expected_event (idx : Z) : option EventNode :=
  match loaded_cloud idx with
  | Some pc =>
      if big_enough pc then Some (event_node_of (cleaned_clusters pc))
      else None
  | None => None
  end.
End Phase2Reference.

Section PointcloudReference.
Context `{PointcloudRoutines}.
Variable frib_params : FribParameters.
Variable detector_params : DetectorParameters.
Variable frib_evt_group : gmap Z RawData.

(** The qualifying ion-chamber peak of event [idx] with its
    multiplicity: with IC time correction, the good peak; without, the
    triggering peak when the multiplicity is within the configured
    bound.  [None] also when the event has no FRIB data. *)
Definition qualifying_ic (idx : Z) : option (Q * Peak) :=
  match frib_evt_group !! idx with
  | None => None
  | Some frib_data =>
      let frib_event := make_frib_event frib_data idx frib_params in
      if correct_ic_time frib_params
      then get_good_ic_peak frib_event frib_params
      else
        let ic_mult := get_ic_multiplicity frib_event frib_params in
        match get_triggering_ic_peak frib_event frib_params with
        | Some p =>
            if Qle_bool ic_mult (frib_ic_multiplicity frib_params)
            then Some (ic_mult, p) else None
        | None => None
        end
  end.

(** The IC time correction computed for event [idx], when IC time
    correction is on and the event has a good peak. *)
Definition computed_ic_correction (idx : Z) : option Q :=
  match frib_evt_group !! idx with
  | None => None
  | Some frib_data =>
      let frib_event := make_frib_event frib_data idx frib_params in
      if correct_ic_time frib_params
      then
        match get_good_ic_peak frib_event frib_params with
        | Some (_, peak) =>
            Some (frib_correct_ic_time frib_event peak frib_params
                    (get_frequency detector_params))
        | None => None
        end
      else None
  end.

(** The [ic_correction] argument the z calibration of event [idx]
    receives. *)
Definition applied_ic_correction (idx : Z) : option Q :=
  match computed_ic_correction idx with
  | Some ic_cor => if Qltb ic_cor 512 then Some ic_cor else None
  | None => None
  end.

(** The calibrated cloud of event [idx]. *)
Definition calibrated_cloud (corrector : option ElectronCorrector)
  (event_data : RawData) (idx : Z) : Cloud :=
  calibrate_z_position
    (micromegas_time_bucket detector_params)
    (window_time_bucket detector_params)
    (detector_length detector_params)
    corrector (applied_ic_correction idx)
    (cloud_from_get_event event_data idx).

(** The four IC attributes expected on the dataset of event [idx]. *)
Definition expected_ic_attrs (idx : Z) : Q * Q * Q * Q :=
  match qualifying_ic idx with
  | Some (mult, peak) =>
      (amplitude peak, integral peak, centroid peak, mult)
  | None => (sentinel, sentinel, sentinel, sentinel)
  end.

Definition expected_dataset (corrector : option ElectronCorrector)
  (event_data : RawData) (idx : Z) : CloudDataset :=
  let '(a, i, c, m) := expected_ic_attrs idx in
  mkCloudDataset a i c m (calibrated_cloud corrector event_data idx).
End PointcloudReference.

Definition ic_attrs (ds : CloudDataset) : Q * Q * Q * Q :=
  (ic_amplitude ds, ic_integral ds, ic_centroid ds, ic_multiplicity ds).

(** A trace file with every member the point-cloud driver indexes. *)
Definition complete_trace_file (tf : TraceFile) (min_event max_event : Z)
  (event_group frib_evt_group : gmap Z RawData) : Prop :=
  get_event_range tf = inr (min_event, max_event)
  /\ tf_get tf = Some (IsGroup event_group)
  /\ exists frib_group,
       tf_frib tf = Some (IsGroup frib_group)
       /\ frib_evt frib_group = Some (IsGroup frib_evt_group)
       /\ is_Some (frib_scaler frib_group).

(** [detector_params.do_garfield_correction] decides the corrector. *)
Definition corrector_of `{PointcloudRoutines}
  (detector_params : DetectorParameters) : option ElectronCorrector :=
  if do_garfield_correction detector_params
  then Some create_electron_corrector else None.

(** The cluster stored in the cluster file for a gated row, if every
    member and attribute the driver reads is there. *)
Definition stored_cluster (cluster_group : gmap Z EventNode)
  (r : EstimateRow) : option Cluster :=
  match cluster_group !! est_event r with
  | None => None
  | Some event_group =>
      match members event_group !! est_cluster_index r with
      | None => None
      | Some local_cluster =>
          match label_attr local_cluster, cloud_data local_cluster with
          | Some lbl, Some data =>
              Some (Cluster_of_data (est_event r) lbl data)
          | _, _ => None
          end
      end
  end.

Definition call_of_row (cluster_group : gmap Z EventNode)
  (direction : option Direction) (r : EstimateRow) : option SolverCall :=
  (fun c => mkSolverCall (est_cluster_index r) c (guess_of_row direction r))
    <$> stored_cluster cluster_group r.

(** The calls made for the rows up to the first whose cluster cannot be
    read. *)
Fixpoint readable_prefix (cluster_group : gmap Z EventNode)
  (direction : option Direction) (rows : list EstimateRow)
  : list SolverCall :=
  match rows with
  | [] => []
  | r :: rest =>
      match call_of_row cluster_group direction r with
      | Some c => c :: readable_prefix cluster_group direction rest
      | None => []
      end
  end.

(** The effect of a sequence of solver calls on [results]. *)
Definition results_of_calls `{SolveRoutines} (ion : Nucleus)
  (interpolator : Interpolator) (det_params : option DetectorParameters)
  (calls : list SolverCall) (results : list FitRow) : list FitRow :=
  fold_left
    (fun res c =>
       solve_physics_interp (call_cluster_index c) (call_cluster c)
         (call_guess c) ion interpolator det_params res)
    calls results.

(** What identifies a solver call, and the same read off a gated row. *)
Definition call_key (c : SolverCall) : Z * Z * Guess :=
  (event (call_cluster c), call_cluster_index c, call_guess c).

Definition row_key (direction : option Direction) (r : EstimateRow)
  : Z * Z * Guess :=
  (est_event r, est_cluster_index r,
   mkGuess (est_polar r) (est_azimuthal r) (est_brho r)
           (est_vertex_x r) (est_vertex_y r) (est_vertex_z r) direction).

(** The reason [phase_solve] logs when it skips a run. *)
Definition skip_reason (run : Z) (inp : SolveInputs) : LogText :=
  match in_pid inp, in_target inp with
  | None, _ => ParticleIDDoesNotExist
  | Some _, GasTarget _ => ClustersOrEstimatesMissing run
  | Some _, _ => TargetNotCorrectFormat
  end.

(** A solver call with the direction of its guess replaced. *)
Definition call_with_direction (d : option Direction) (c : SolverCall)
  : SolverCall :=
  mkSolverCall (call_cluster_index c) (call_cluster c)
    (mkGuess (g_polar (call_guess c)) (g_azimuthal (call_guess c))
       (g_brho (call_guess c)) (g_vertex_x (call_guess c))
       (g_vertex_y (call_guess c)) (g_vertex_z (call_guess c)) d).

(** ** Sample runs *)

(** A small instance of the clustering routines: the cloud is loaded as
    stored, all of it forms one cluster labelled 0, and joining and
    cleaning keep what they are given. *)
Definition sample_cluster_routines : ClusterRoutines :=
  {| load_cloud_from_hdf5_data := fun data idx => mkPointCloud idx data;
     clusterize := fun pc _ => [mkCluster (event_number pc) 0 pc];
     join_clusters := fun cs _ => cs;
     cleanup_clusters := fun cs _ => cs |}.

Definition sample_point (x : Z) : Point :=
  [inject_Z x; 0%Q; 0%Q; 1%Q].

Definition sample_dataset (c : Cloud) : CloudDataset :=
  mkCloudDataset sentinel sentinel sentinel sentinel c.

(** Events 0 to 2: event 0 has one point, event 1 has no data, event 2 has
    three points. *)
Definition sample_cloud_group : CloudGroup :=
  mkCloudGroup 0 2
    (<[0 := sample_dataset [sample_point 1]]>
       (<[2 := sample_dataset [sample_point 1; sample_point 2;
                               sample_point 3]]> ∅)).

Definition sample_cluster_params : ClusterParameters :=
  mkClusterParameters 2.

(** A small instance of the point-cloud routines. The cloud of an event is
    its raw data read as numbers; a FRIB event is its raw data, whose
    first row, when present, is the peak (amplitude, integral, centroid),
    and the number of rows is the multiplicity; the IC time correction is
    the centroid of the peak; the z calibration adds the correction, when
    given one, to every coordinate. *)
Definition sample_peak (fe : RawData) : option Peak :=
  match fe with
  | [a; i; c] :: _ => Some (mkPeak (inject_Z a) (inject_Z i) (inject_Z c))
  | _ => None
  end.

Definition sample_pointcloud_routines : PointcloudRoutines :=
  {| ElectronCorrector := unit;
     FribEvent := RawData;
     create_electron_corrector := tt;
     cloud_from_get_event := fun data _ => map (map inject_Z) data;
     make_frib_event := fun data _ _ => data;
     get_good_ic_peak := fun fe _ =>
       (fun p => (inject_Z (len fe), p)) <$> sample_peak fe;
     frib_correct_ic_time := fun _ peak _ _ => centroid peak;
     get_ic_multiplicity := fun fe _ => inject_Z (len fe);
     get_triggering_ic_peak := fun fe _ => sample_peak fe;
     calibrate_z_position := fun _ _ _ _ ic c =>
       match ic with
       | Some x => map (map (Qplus x)) c
       | None => c
       end |}.

(** Events 5 to 8 of a trace file: event 5 has a peak with centroid 100,
    event 6 has no trace data, event 7 has trace data and no FRIB data,
    event 8 has a peak with centroid 600. *)
Definition sample_event_group : gmap Z RawData :=
  <[5 := [[1; 2; 3]]]> (<[7 := [[4; 5; 6]]]> (<[8 := [[7; 8; 9]]]> ∅)).

Definition sample_frib_evt_group : gmap Z RawData :=
  <[5 := [[40; 50; 100]]]> (<[8 := [[40; 50; 600]]]> ∅).

Definition sample_trace_file : TraceFile :=
  mkTraceFile (Some [5; 4; 8]) (Some (IsGroup sample_event_group))
    (Some (IsGroup
             (mkFribGroup (Some (IsGroup sample_frib_evt_group))
                          (Some (IsGroup []))))).

Definition sample_frib_params : FribParameters := mkFribParameters true 1.

Definition sample_detector_params : DetectorParameters :=
  mkDetectorParameters false 10 20 1000 (25 # 4).

(** A small instance of the solve routines: the fit returns the guess
    with unit uncertainties, and fails on a cluster without points. *)
Definition sample_solve_routines : SolveRoutines :=
  {| Interpolator := unit;
     create_interpolator := fun _ => tt;
     fit_trajectory := fun cluster guess _ _ _ =>
       match cloud (point_cloud cluster) with
       | [] => None
       | _ =>
           Some (mkFitValues (g_vertex_x guess) 1 (g_vertex_y guess) 1
                   (g_vertex_z guess) 1 (g_brho guess) 1 (g_polar guess) 1
                   (g_azimuthal guess) 1 1)
       end |}.

(** A gate that accepts [dEdx] below 10. *)
Definition sample_pid : ParticleID :=
  mkParticleID (2, 4) (fun dEdx _ => Qltb dEdx 10).

Definition sample_solver_params : SolverParameters :=
  mkSolverParameters 100 200 "tracks.npy".

(** Rows: event, cluster index, dEdx, polar, ic amplitude. *)
Definition sample_row (ev cidx : Z) (dEdx polar ic : Q) : EstimateRow :=
  mkEstimateRow ev cidx dEdx 1 polar 0 0 0 0 ic.

(** Event 3 has three rows: polar 1/2 (passes), polar 3/2 (passes) and
    polar 2 (ion-chamber amplitude on the upper bound, rejected); event 4
    has one row rejected by the particle gate. *)
Definition sample_estimates : list EstimateRow :=
  [ sample_row 3 0 5 (1 # 2) 150;
    sample_row 3 1 5 (3 # 2) 150;
    sample_row 3 2 5 2 200;
    sample_row 4 0 50 1 150 ].

(** The cluster file that [phase_2] leaves for the sample point file has
    no group for event 3; this one has. *)
Definition sample_cluster_file : gmap Z EventNode :=
  <[3 := mkEventNode (Some 2)
           (<[0 := mkClusterNode (Some 0) (Some [sample_point 1])]>
              (<[1 := mkClusterNode (Some 7) (Some [sample_point 2])]> ∅))]> ∅.

Definition sample_solve_inputs (estimates : list EstimateRow) : SolveInputs :=
  mkSolveInputs (Some sample_pid) (GasTarget "gas.json")
    (Some (Some (IsGroup sample_cluster_file))) (Some estimates).

(** A cluster file with five events: event 3 as above, and events 11 to
    14 with one cluster each. *)
Definition sample_event_node : EventNode :=
  mkEventNode (Some 1)
    (<[0 := mkClusterNode (Some 0) (Some [sample_point 1])]> ∅).

Definition sample_five_cluster_file : gmap Z EventNode :=
  <[11 := sample_event_node]>
    (<[12 := sample_event_node]>
       (<[13 := sample_event_node]>
          (<[14 := sample_event_node]> sample_cluster_file))).

(** The sample estimates and five more rows: one accepted row for each of
    the events 11 to 14, and a second row of event 14 rejected by the
    particle gate. *)
Definition sample_five_estimates : list EstimateRow :=
  sample_estimates
  ++ [ sample_row 11 0 5 1 150;
       sample_row 12 0 5 (1 # 4) 150;
       sample_row 13 0 5 3 150;
       sample_row 14 0 5 (5 # 2) 150;
       sample_row 14 0 50 4 150 ].

(** A small join criterion: two clusters are fragments of one track when
    they hold the same number of points; merging concatenates the points
    under the label of the first. *)
Definition sample_join_criterion : Joiner.JoinCriterion :=
  {| Joiner.fragments := fun _ a b =>
       (length (cloud (point_cloud a)) =? length (cloud (point_cloud b)))%nat;
     Joiner.merge_clusters := fun a b =>
       mkCluster (event a) (label a)
         (mkPointCloud (event a)
            (cloud (point_cloud a) ++ cloud (point_cloud b))) |}.

Definition sample_fragment (lbl : Z) (points : list Z) : Cluster :=
  mkCluster 1 lbl (mkPointCloud 1 (map sample_point points)).

(** The group [cloud] of the point file as [phase_pointcloud] leaves it:
    the attributes [min_event] and [max_event] of lines 121-123 and the
    datasets of the final state. *)
Definition cloud_group_written (min_event max_event : Z) (s : P1State)
  : CloudGroup :=
  mkCloudGroup min_event max_event (p1_datasets s).

(** The progress counter of the three loops, on its own: from the count
    [c], [n] turns of [if count > flush_val: count = 0; emit] followed by
    [count += 1] leave the count and the number of emissions. *)
Fixpoint run_counter (flush_val : Z) (n : nat) (c : Z) : Z * nat :=
  match n with
  | O => (c, O)
  | S n' =>
      if flush_val <? c
      then let (c', e) := run_counter flush_val n' (0 + 1) in (c', S e)
      else run_counter flush_val n' (c + 1)
  end.

(** * Properties *)

(** ** The phase monad, [range] and [enumerate] *)

Ltac msimpl :=
  repeat (progress (unfold bind, modify, ret, gets, raise, getitem in *;
                    simpl in * )).

Lemma bind_modify {St B} (f : St -> St) (k : unit -> M St B) s :
  bind (modify f) k s = k tt (f s).
Proof. reflexivity. Qed.

Lemma bind_ret {St A B} (a : A) (k : A -> M St B) s :
  bind (ret a) k s = k a s.
Proof. reflexivity. Qed.

Lemma bind_gets {St A B} (f : St -> A) (k : A -> M St B) s :
  bind (gets f) k s = k (f s) s.
Proof. reflexivity. Qed.

Lemma bind_raise {St A B} (e : Exn) (k : A -> M St B) s :
  bind (raise e) k s = (s, inl e).
Proof. reflexivity. Qed.

Lemma bind_run {St A B} (m : M St A) (k : A -> M St B) s s' a :
  m s = (s', inr a) -> bind m k s = k a s'.
Proof. intros Hm. unfold bind. by rewrite Hm. Qed.

Lemma elem_of_range lo hi k : k ∈ range lo hi <-> lo <= k < hi.
Proof.
  unfold range. rewrite list_elem_of_fmap. split.
  - intros (i & -> & Hi). apply elem_of_seq in Hi. lia.
  - intros Hk. exists (Z.to_nat (k - lo)). split; [lia|].
    apply elem_of_seq. lia.
Qed.

Lemma NoDup_range lo hi : NoDup (range lo hi).
Proof.
  unfold range. apply NoDup_fmap_2; [|apply NoDup_seq].
  intros i j Hij. lia.
Qed.

Lemma add_members_lookup cs : forall n m k,
  add_members m (enumerate_from n cs) !! k =
  if decide (n <= k)
  then match cs !! Z.to_nat (k - n) with
       | Some c => Some (node_of_cluster c)
       | None => m !! k
       end
  else m !! k.
Proof.
  induction cs as [|c cs IH]; intros n m k; simpl.
  - by destruct (decide _).
  - unfold add_members in *. rewrite IH. simpl.
    destruct (decide (n + 1 <= k)) as [Hk|Hk].
    + rewrite decide_True by lia.
      replace (Z.to_nat (k - n)) with (S (Z.to_nat (k - (n + 1)))) by lia.
      simpl. destruct (cs !! _); [done|].
      rewrite lookup_insert_ne by lia. done.
    + destruct (decide (n <= k)) as [Hk'|Hk'].
      * assert (k = n) as -> by lia. rewrite Z.sub_diag. simpl.
        by rewrite lookup_insert_eq.
      * rewrite lookup_insert_ne by lia. done.
Qed.

Lemma event_node_members cleaned k :
  members (event_node_of cleaned) !! k =
  if decide (0 <= k) then node_of_cluster <$> cleaned !! Z.to_nat k else None.
Proof.
  unfold event_node_of, enumerate. simpl. rewrite add_members_lookup.
  rewrite Z.sub_0_r. destruct (decide _); [|done].
  destruct (cleaned !! _); done.
Qed.

(** ** The clustering phase *)

(** Writing the clusters of one event never hits a taken name: the names
    come from [enumerate]. *)
Lemma write_clusters_run idx cs : forall n s ev,
  p2_events s !! idx = Some ev ->
  (forall k, n <= k -> members ev !! k = None) ->
  for_each (write_cluster idx) (enumerate_from n cs) s =
  (p2_set_events
     (fun _ => <[idx := mkEventNode (nclusters ev)
                          (add_members (members ev) (enumerate_from n cs))]>
                 (p2_events s)) s,
   inr tt).
Proof.
  induction cs as [|c cs IH]; intros n s ev Hev Hfree.
  - msimpl. f_equal. destruct s, ev; unfold p2_set_events; simpl in *.
    f_equal. symmetry. by apply insert_id.
  - cbn [enumerate_from for_each]. unfold bind at 1.
    unfold write_cluster at 1. msimpl. rewrite Hev.
    rewrite (Hfree n) by lia.
    erewrite (IH (n + 1)); cycle 1.
    + simpl. erewrite alter_alt_Some by exact Hev. apply lookup_insert_eq.
    + simpl. intros k Hk. rewrite lookup_insert_ne by lia. apply Hfree. lia.
    + f_equal. unfold p2_set_events; simpl. f_equal.
      erewrite alter_alt_Some by exact Hev.
      by rewrite insert_insert_eq.
Qed.

Lemma create_event_group_run idx s :
  p2_events s !! idx = None ->
  create_event_group idx s =
  (p2_set_events (insert idx (mkEventNode None ∅)) s, inr tt).
Proof. intros Hfree. unfold create_event_group. msimpl. by rewrite Hfree. Qed.

Section Phase2Facts.
Context `{ClusterRoutines}.
Variable cloud_group : CloudGroup.
Variable cluster_params : ClusterParameters.

Local Abbreviation expected := (expected_event cloud_group cluster_params).
Local Abbreviation loaded := (loaded_cloud cloud_group).
Local Abbreviation big := (big_enough cluster_params).

(** One turn of the loop on an event whose group does not exist yet. *)
Lemma phase_2_event_run flush_val idx s :
  p2_events s !! idx = None ->
  exists s',
    phase_2_event cloud_group cluster_params flush_val idx s = (s', inr tt)
    /\ p2_events s' =
       match expected idx with
       | Some ev => <[idx := ev]> (p2_events s)
       | None => p2_events s
       end
    /\ p2_loaded s' = p2_loaded s ++ omap loaded [idx]
    /\ p2_clusterized s' =
       p2_clusterized s ++ List.filter big (omap loaded [idx]).
Proof.
  intros Hfree. unfold phase_2_event, expected_event, big_enough.
  rewrite bind_modify.
  set (s1 := p2_tick flush_val s).
  assert (Hs1 : p2_events s1 = p2_events s /\ p2_loaded s1 = p2_loaded s
                /\ p2_clusterized s1 = p2_clusterized s).
  { unfold s1, p2_tick. destruct (_ <? _); done. }
  destruct Hs1 as (He1 & Hl1 & Hc1).
  cbn [omap list_omap]. unfold loaded_cloud.
  destruct (cloud_datasets cloud_group !! idx) as [d|] eqn:Hd;
    cbn [fmap option_fmap option_map].
  - set (pc := load_cloud_from_hdf5_data (ds_data d) idx).
    rewrite bind_modify.
    destruct (len (cloud pc) <? min_write_size cluster_params) eqn:Hsz;
      cbn [negb List.filter].
    + eexists. split; [reflexivity|]. simpl.
      rewrite He1, Hl1, Hc1, Hsz. simpl. by rewrite app_nil_r.
    + rewrite bind_modify.
      set (s2 := p2_note_clusterized pc (p2_note_loaded pc s1)).
      erewrite bind_run
        by (apply create_event_group_run; simpl; congruence).
      unfold set_nclusters. rewrite bind_modify.
      fold (cleaned_clusters cluster_params pc).
      set (cleaned := cleaned_clusters cluster_params pc).
      unfold enumerate.
      erewrite (write_clusters_run idx cleaned 0); cycle 1.
      * simpl. rewrite alter_insert_eq. apply lookup_insert_eq.
      * done.
      * eexists. split; [reflexivity|]. simpl.
        rewrite Hl1, Hc1, He1, Hsz. simpl. repeat split; try done.
        rewrite alter_insert_eq, !insert_insert_eq. done.
  - eexists. split; [reflexivity|].
    rewrite He1, Hl1, Hc1, !app_nil_r. done.
Qed.

(** The loop over any duplicate-free list of events none of which has a
    group yet: it never raises, and leaves exactly the expected groups. *)
Lemma phase_2_events_run flush_val l : forall s,
  NoDup l ->
  (forall k, k ∈ l -> p2_events s !! k = None) ->
  exists s',
    for_each (phase_2_event cloud_group cluster_params flush_val) l s
    = (s', inr tt)
    /\ (forall k, p2_events s' !! k =
                  if decide (k ∈ l) then expected k else p2_events s !! k)
    /\ p2_loaded s' = p2_loaded s ++ omap loaded l
    /\ p2_clusterized s' = p2_clusterized s ++ List.filter big (omap loaded l).
Proof.
  induction l as [|idx l IH]; intros s Hnd Hfree.
  - exists s. msimpl. rewrite !app_nil_r. repeat split; done.
  - apply NoDup_cons in Hnd as [Hidx Hnd].
    destruct (phase_2_event_run flush_val idx s) as (s1 & Hrun & He & Hl & Hc).
    { apply Hfree. left. }
    destruct (IH s1 Hnd) as (s' & Hrun' & He' & Hl' & Hc').
    { intros k Hk. rewrite He. destruct (expected idx).
      - rewrite lookup_insert_ne; [apply Hfree; by right|].
        intros ->. done.
      - apply Hfree. by right. }
    exists s'. cbn [for_each]. unfold bind at 1. rewrite Hrun.
    split; [exact Hrun'|]. split; [|split].
    + intros k. rewrite He'. destruct (decide (k ∈ l)) as [Hk|Hk].
      * rewrite decide_True; [done | by right].
      * destruct (decide (k = idx)) as [->|Hne].
        -- rewrite decide_True by left. rewrite He.
           destruct (expected idx) eqn:Hex.
           ++ by rewrite lookup_insert_eq.
           ++ apply Hfree. left.
        -- rewrite decide_False.
           ++ rewrite He. destruct (expected idx); [|done].
              by rewrite lookup_insert_ne.
           ++ intros [?|?]%elem_of_cons; done.
    + rewrite Hl', Hl. simpl. rewrite <- app_assoc. f_equal.
      destruct (loaded idx); done.
    + rewrite Hc', Hc. simpl. rewrite <- app_assoc. f_equal.
      destruct (loaded idx); simpl; [|done].
      destruct (big p); done.
Qed.
End Phase2Facts.

Lemma add_members_size cs : forall n m,
  (forall k, n <= k -> m !! k = None) ->
  size (add_members m (enumerate_from n cs)) = (size m + length cs)%nat.
Proof.
  induction cs as [|c cs IH]; intros n m Hfree; simpl.
  - unfold add_members. simpl. lia.
  - unfold add_members in *. simpl. rewrite (IH (n + 1)).
    + rewrite map_size_insert_None by (apply Hfree; lia). lia.
    + intros k Hk. rewrite lookup_insert_ne by lia. apply Hfree. lia.
Qed.

Lemma event_node_size cleaned :
  size (members (event_node_of cleaned)) = length cleaned.
Proof.
  unfold event_node_of, enumerate. simpl.
  rewrite add_members_size by (intros; apply lookup_empty).
  by rewrite map_size_empty.
Qed.

Section Phase2Run.
Context `{ClusterRoutines}.
Variable cloud_group : CloudGroup.
Variable cluster_params : ClusterParameters.

Local Abbreviation lo := (cloud_min_event cloud_group).
Local Abbreviation hi := (cloud_max_event cloud_group).
Local Abbreviation final :=
  (fst (phase_2 (Some cloud_group) cluster_params)).

(** A whole run of [phase_2] on a point file with a [cloud] group. *)
Lemma phase_2_run :
  snd (phase_2 (Some cloud_group) cluster_params) = inr tt
  /\ (forall k, p2_events final !! k =
                if decide (lo <= k <= hi)
                then expected_event cloud_group cluster_params k
                else None)
  /\ p2_loaded final = omap (loaded_cloud cloud_group) (range lo (hi + 1))
  /\ p2_clusterized final =
     List.filter (big_enough cluster_params)
       (omap (loaded_cloud cloud_group) (range lo (hi + 1))).
Proof.
  unfold phase_2, phase_2_loop.
  destruct (phase_2_events_run cloud_group cluster_params
              (int_percent (hi - lo)) (range lo (hi + 1)) p2_init)
    as (s' & Hrun & He & Hl & Hc).
  { apply NoDup_range. }
  { intros k _. apply lookup_empty. }
  rewrite Hrun. simpl. split; [done|]. split; [|by split].
  intros k. rewrite He. simpl.
  destruct (decide (k ∈ range lo (hi + 1))) as [Hk|Hk];
    rewrite elem_of_range in Hk.
  - rewrite decide_True by lia. done.
  - rewrite decide_False by lia. apply lookup_empty.
Qed.
End Phase2Run.

(** ** The point-cloud phase *)

Lemma create_cloud_dataset_run pc s :
  p1_datasets s !! event_number pc = None ->
  create_cloud_dataset pc s =
  (p1_set_datasets
     (insert (event_number pc)
        (mkCloudDataset sentinel sentinel sentinel sentinel
           (zeros_like (cloud pc)))) s,
   inr tt).
Proof. intros Hfree. unfold create_cloud_dataset. msimpl. by rewrite Hfree. Qed.

Section PointcloudFacts.
Context `{PointcloudRoutines}.
Variable run : Z.
Variable frib_params : FribParameters.
Variable detector_params : DetectorParameters.
Variable corrector : option ElectronCorrector.
Variables event_group frib_evt_group : gmap Z RawData.

Local Abbreviation body flush_val :=
  (phase_pointcloud_event run frib_params detector_params flush_val
     corrector event_group frib_evt_group).
Local Abbreviation dataset_for :=
  (expected_dataset frib_params detector_params frib_evt_group corrector).
Local Abbreviation correction_for :=
  (applied_ic_correction frib_params detector_params frib_evt_group).

Lemma p1_tick_keeps flush_val s :
  p1_datasets (p1_tick run flush_val s) = p1_datasets s
  /\ p1_calibrations (p1_tick run flush_val s) = p1_calibrations s
  /\ p1_log (p1_tick run flush_val s) = p1_log s
  /\ p1_opened (p1_tick run flush_val s) = p1_opened s
  /\ p1_scalers_done (p1_tick run flush_val s) = p1_scalers_done s.
Proof. unfold p1_tick. destruct (_ <? _); done. Qed.

(** One turn of the loop on an event whose dataset does not exist yet. *)
Lemma phase_pointcloud_event_run flush_val idx s :
  p1_datasets s !! idx = None ->
  exists s',
    body flush_val idx s = (s', inr tt)
    /\ p1_datasets s' =
       match event_group !! idx with
       | Some event_data =>
           <[idx := dataset_for event_data idx]> (p1_datasets s)
       | None => p1_datasets s
       end
    /\ p1_calibrations s' =
       p1_calibrations s ++
       match event_group !! idx with
       | Some _ => [(idx, correction_for idx)]
       | None => []
       end
    /\ p1_log s' = p1_log s.
Proof.
  intros Hfree. unfold phase_pointcloud_event.
  rewrite bind_modify.
  destruct (p1_tick_keeps flush_val s) as (Hd & Hc & Hl & _).
  set (s1 := p1_tick run flush_val s) in *.
  destruct (event_group !! idx) as [event_data|] eqn:Hev.
  2:{ exists s1. rewrite Hd, Hc, Hl, app_nil_r. done. }
  unfold expected_dataset, expected_ic_attrs, calibrated_cloud,
    applied_ic_correction, computed_ic_correction, qualifying_ic.
  erewrite bind_run
    by (apply create_cloud_dataset_run; simpl; congruence).
  unfold calibrate, set_ic_attrs, write_cloud.
  cbn [event_number cloud].
  destruct (frib_evt_group !! idx) as [frib_data|]; cbn zeta.
  2:{ eexists. split; [reflexivity|]. simpl.
      rewrite Hd, Hc, Hl, alter_insert_eq. done. }
  destruct (correct_ic_time frib_params).
  - destruct (get_good_ic_peak _ _) as [[mult peak]|].
    + destruct (Qltb _ 512); eexists; (split; [reflexivity|]); simpl;
        rewrite Hd, Hc, Hl, !alter_insert_eq; done.
    + eexists. split; [reflexivity|]. simpl.
      rewrite Hd, Hc, Hl, alter_insert_eq. done.
  - destruct (get_triggering_ic_peak _ _) as [p|].
    + destruct (Qle_bool _ _); eexists; (split; [reflexivity|]); simpl;
        rewrite Hd, Hc, Hl, ?alter_insert_eq; done.
    + eexists. split; [reflexivity|]. simpl.
      rewrite Hd, Hc, Hl, alter_insert_eq. done.
Qed.

(** The loop over any duplicate-free list of events none of which has a
    dataset yet: it never raises, and leaves exactly one dataset per
    event that has trace data. *)
Lemma phase_pointcloud_events_run flush_val l : forall s,
  NoDup l ->
  (forall k, k ∈ l -> p1_datasets s !! k = None) ->
  exists s',
    for_each (body flush_val) l s = (s', inr tt)
    /\ (forall k, p1_datasets s' !! k =
                  if decide (k ∈ l)
                  then (fun d => dataset_for d k) <$> event_group !! k
                  else p1_datasets s !! k)
    /\ p1_calibrations s' =
       p1_calibrations s ++
       omap (fun k => (fun _ => (k, correction_for k)) <$> event_group !! k) l
    /\ p1_log s' = p1_log s.
Proof.
  induction l as [|idx l IH]; intros s Hnd Hfree.
  - exists s. msimpl. rewrite app_nil_r. done.
  - apply NoDup_cons in Hnd as [Hidx Hnd].
    destruct (phase_pointcloud_event_run flush_val idx s)
      as (s1 & Hrun & Hd & Hc & Hl).
    { apply Hfree. left. }
    destruct (IH s1 Hnd) as (s' & Hrun' & Hd' & Hc' & Hl').
    { intros k Hk. rewrite Hd. destruct (event_group !! idx).
      - rewrite lookup_insert_ne; [apply Hfree; by right|].
        intros ->. done.
      - apply Hfree. by right. }
    exists s'. cbn [for_each]. erewrite bind_run by exact Hrun.
    split; [exact Hrun'|]. split; [|split; [|congruence]].
    + intros k. rewrite Hd'. destruct (decide (k ∈ l)) as [Hk|Hk].
      * rewrite decide_True; [done | by right].
      * destruct (decide (k = idx)) as [->|Hne].
        -- rewrite decide_True by left. rewrite Hd.
           destruct (event_group !! idx) eqn:Hex; simpl.
           ++ by rewrite lookup_insert_eq.
           ++ apply Hfree. left.
        -- rewrite decide_False.
           ++ rewrite Hd. destruct (event_group !! idx); [|done].
              by rewrite lookup_insert_ne.
           ++ intros [?|?]%elem_of_cons; done.
    + rewrite Hc', Hc. cbn [omap list_omap]. rewrite <- app_assoc. f_equal.
      destruct (event_group !! idx); done.
Qed.
End PointcloudFacts.

Section PointcloudRun.
Context `{PointcloudRoutines}.
Variable run : Z.
Variable frib_params : FribParameters.
Variable detector_params : DetectorParameters.
Variable tf : TraceFile.
Variables min_event max_event : Z.
Variables event_group frib_evt_group : gmap Z RawData.
Hypothesis Hcomplete :
  complete_trace_file tf min_event max_event event_group frib_evt_group.

Local Abbreviation outcome :=
  (phase_pointcloud run frib_params detector_params (Some tf) p1_init).
Local Abbreviation dataset_for :=
  (expected_dataset frib_params detector_params frib_evt_group
     (corrector_of detector_params)).
Local Abbreviation correction_for :=
  (applied_ic_correction frib_params detector_params frib_evt_group).

(** A whole run of [phase_pointcloud] on a complete trace file. *)
Lemma phase_pointcloud_run :
  snd outcome = inr tt
  /\ (forall k, p1_datasets (fst outcome) !! k =
                if decide (min_event <= k <= max_event)
                then (fun d => dataset_for d k) <$> event_group !! k
                else None)
  /\ p1_calibrations (fst outcome) =
     omap (fun k => (fun _ => (k, correction_for k)) <$> event_group !! k)
          (range min_event (max_event + 1))
  /\ p1_log (fst outcome) = [(INFO, Phase1Complete)].
Proof.
  destruct Hcomplete as (Hmeta & Hget & fg & Hfrib & Hevt & [sc Hsc]).
  unfold phase_pointcloud. rewrite bind_modify.
  rewrite Hmeta, Hget, Hfrib, Hevt, Hsc.
  destruct (phase_pointcloud_events_run run frib_params detector_params
              (corrector_of detector_params) event_group frib_evt_group
              (int_percent (max_event - min_event))
              (range min_event (max_event + 1)) (p1_open_file p1_init))
    as (s' & Hrun & Hd & Hc & Hlog).
  { apply NoDup_range. }
  { intros k _. apply lookup_empty. }
  unfold corrector_of in *.
  erewrite bind_run by exact Hrun.
  simpl. split; [done|]. split; [|split].
  - intros k. rewrite Hd. simpl.
    destruct (decide (k ∈ range min_event (max_event + 1))) as [Hk|Hk];
      rewrite elem_of_range in Hk.
    + rewrite decide_True by lia. done.
    + rewrite decide_False by lia. apply lookup_empty.
  - by rewrite Hc.
  - by rewrite Hlog.
Qed.
End PointcloudRun.

(** ** Gating *)

Lemma Qltb_lt x y : Qltb x y = true <-> (x < y)%Q.
Proof.
  unfold Qltb. rewrite negb_true_iff. split.
  - intros Hb. apply Qnot_le_lt. intros Hle.
    apply Qle_bool_iff in Hle. congruence.
  - intros Hlt. destruct (Qle_bool y x) eqn:E; [|done].
    apply Qle_bool_iff in E. by apply Qlt_not_le in Hlt.
Qed.

Lemma Qltb_ge x y : Qltb x y = false <-> (y <= x)%Q.
Proof.
  unfold Qltb. rewrite negb_false_iff. apply Qle_bool_iff.
Qed.

Lemma passes_gate_true pid sp r :
  passes_gate pid sp r = true <->
  is_cols_inside pid (est_dEdx r) (est_brho r) = true
  /\ (ic_min_val sp < est_ic_amplitude r)%Q
  /\ (est_ic_amplitude r < ic_max_val sp)%Q.
Proof.
  unfold passes_gate. rewrite !andb_true_iff, !Qltb_lt. tauto.
Qed.

#[export] Instance polar_ge_trans : Transitive polar_ge.
Proof. intros a b c Hab Hbc. unfold polar_ge in *. by eapply Qle_trans. Qed.

#[export] Instance polar_ge_total : Total polar_ge.
Proof.
  intros a b. unfold polar_ge.
  destruct (Qlt_le_dec (est_polar a) (est_polar b)) as [Hlt|Hle].
  - right. by apply Qlt_le_weak.
  - by left.
Qed.

Lemma unique_event_first_elem rows : forall seen r,
  r ∈ unique_event_first seen rows -> r ∈ rows /\ est_event r ∉ seen.
Proof.
  induction rows as [|r0 rows IH]; intros seen r; simpl.
  - by intros ?%elem_of_nil.
  - destruct (decide (est_event r0 ∈ seen)) as [Hin|Hout].
    + intros Hr. apply IH in Hr as [? ?]. split; [by right | done].
    + intros [->|Hr]%elem_of_cons; [split; [by left | done]|].
      apply IH in Hr as [? Hns]. split; [by right|].
      intros Hin. apply Hns, elem_of_union. by right.
Qed.

Lemma unique_event_first_NoDup rows : forall seen,
  NoDup (map est_event (unique_event_first seen rows)).
Proof.
  induction rows as [|r0 rows IH]; intros seen; simpl.
  - constructor.
  - destruct (decide (est_event r0 ∈ seen)); [apply IH|].
    simpl. apply NoDup_cons. split; [|apply IH].
    intros (r & Heq & Hr)%list_elem_of_fmap.
    apply unique_event_first_elem in Hr as [_ Hns]. set_solver.
Qed.

Lemma unique_event_first_covers rows : forall seen r',
  r' ∈ rows -> est_event r' ∉ seen ->
  exists r, r ∈ unique_event_first seen rows /\ est_event r = est_event r'.
Proof.
  induction rows as [|r0 rows IH]; intros seen r'; simpl.
  - by intros ?%elem_of_nil.
  - intros [->|Hr']%elem_of_cons Hns.
    + rewrite decide_False by done. exists r0. split; [by left | done].
    + destruct (decide (est_event r0 ∈ seen)) as [Hin|Hout].
      * by apply IH.
      * destruct (decide (est_event r' = est_event r0)) as [Heq|Hne].
        -- exists r0. split; [by left | done].
        -- destruct (IH ({[est_event r0]} ∪ seen) r' Hr') as (r & Hr & He).
           { intros [Hin|Hin]%elem_of_union; [|done].
             apply elem_of_singleton in Hin. done. }
           exists r. split; [by right | done].
Qed.

(** On rows sorted by polar descending, the row kept for an event has the
    largest polar angle among the rows of that event. *)
Lemma unique_event_first_largest rows : forall seen r r',
  StronglySorted polar_ge rows ->
  r ∈ unique_event_first seen rows -> r' ∈ rows ->
  est_event r' = est_event r ->
  (est_polar r' <= est_polar r)%Q.
Proof.
  induction rows as [|r0 rows IH]; intros seen r r' Hs; simpl.
  - by intros ?%elem_of_nil.
  - apply StronglySorted_inv in Hs as [Hs Hall].
    rewrite Forall_forall in Hall.
    destruct (decide (est_event r0 ∈ seen)) as [Hin|Hout].
    + intros Hr [->|Hr']%elem_of_cons Heq.
      * apply unique_event_first_elem in Hr as [_ Hns]. congruence.
      * by eapply IH.
    + intros [->|Hr]%elem_of_cons [->|Hr']%elem_of_cons Heq.
      * apply Qle_refl.
      * by apply Hall.
      * apply unique_event_first_elem in Hr as [_ Hns]. set_solver.
      * by eapply IH.
Qed.

Lemma elem_of_gated_input pid sp rows r :
  r ∈ sort_polar_descending
        (filter (fun r => Is_true (passes_gate pid sp r)) rows)
  <-> r ∈ rows /\ passes_gate pid sp r = true.
Proof.
  unfold sort_polar_descending. rewrite merge_sort_Permutation.
  rewrite list_elem_of_filter, Is_true_true. tauto.
Qed.

(** ** The solve phase *)

Lemma read_cluster_stored {St} group r c (s : St) :
  stored_cluster group r = Some c ->
  read_cluster group r s = (s, inr c).
Proof.
  unfold stored_cluster, read_cluster. intros Hc.
  destruct (group !! est_event r) as [ev|]; [|done].
  cbn [getitem]. rewrite bind_ret.
  destruct (members ev !! est_cluster_index r) as [node|]; [|done].
  cbn [getitem]. rewrite bind_ret.
  destruct node as [[lbl|] [data|]]; simplify_eq/=. done.
Qed.

Lemma read_cluster_missing {St} group r (s : St) :
  stored_cluster group r = None ->
  exists e, read_cluster group r s = (s, inl e).
Proof.
  unfold stored_cluster, read_cluster. intros Hc.
  destruct (group !! est_event r) as [ev|]; [|by eexists].
  cbn [getitem]. rewrite bind_ret.
  destruct (members ev !! est_cluster_index r) as [node|]; [|by eexists].
  cbn [getitem]. rewrite bind_ret.
  destruct node as [[lbl|] [data|]]; simplify_eq/=; by eexists.
Qed.

Section SolveFacts.
Context `{SolveRoutines}.
Variable run : Z.
Variable solver_params : SolverParameters.
Variables flush_val progress : Z.
Variable group : gmap Z EventNode.
Variable direction : option Direction.
Variable ion : Nucleus.
Variable interpolator : Interpolator.
Variable det_params : option DetectorParameters.

Local Abbreviation row_body :=
  (solve_row run flush_val progress (ret group) direction ion interpolator
     det_params).

Lemma sv_tick_keeps s :
  sv_calls (sv_tick run flush_val progress s) = sv_calls s
  /\ sv_results (sv_tick run flush_val progress s) = sv_results s
  /\ sv_result_file (sv_tick run flush_val progress s) = sv_result_file s
  /\ sv_log (sv_tick run flush_val progress s) = sv_log s.
Proof. unfold sv_tick. destruct (_ <? _); done. Qed.

(** One turn of the loop. *)
Lemma solve_row_run r s :
  match call_of_row group direction r with
  | Some c =>
      row_body r s =
      (sv_solve c
         (solve_physics_interp (call_cluster_index c) (call_cluster c)
            (call_guess c) ion interpolator det_params)
         (sv_tick run flush_val progress s), inr tt)
  | None => exists e, row_body r s = (sv_tick run flush_val progress s, inl e)
  end.
Proof.
  unfold solve_row, call_of_row. rewrite bind_modify, bind_ret.
  destruct (stored_cluster group r) as [c|] eqn:Hst;
    cbn [fmap option_fmap option_map].
  - erewrite bind_run by (by apply read_cluster_stored). done.
  - destruct (read_cluster_missing group r
                (sv_tick run flush_val progress s) Hst) as [e He].
    exists e. unfold bind. by rewrite He.
Qed.

(** The loop over the gated rows: the solver is called on the rows in
    order up to the first whose stored cluster cannot be read; neither
    the log nor the result file is touched. *)
Lemma solve_rows_run rows : forall s,
  let out := for_each row_body rows s in
  sv_calls (fst out) = sv_calls s ++ readable_prefix group direction rows
  /\ sv_results (fst out) =
     results_of_calls ion interpolator det_params
       (readable_prefix group direction rows) (sv_results s)
  /\ sv_result_file (fst out) = sv_result_file s
  /\ sv_log (fst out) = sv_log s
  /\ (Forall (fun r => is_Some (stored_cluster group r)) rows ->
      snd out = inr tt).
Proof.
  induction rows as [|r rows IH]; intros s; cbn zeta.
  - simpl. rewrite app_nil_r. done.
  - cbn [for_each readable_prefix].
    destruct (sv_tick_keeps s) as (Hc & Hr & Hf & Hl).
    pose proof (solve_row_run r s) as Hrow.
    destruct (call_of_row group direction r) as [c|] eqn:Hcall.
    + erewrite bind_run by exact Hrow.
      match goal with |- context [for_each _ rows ?s'] =>
        specialize (IH s') end.
      cbn zeta in IH. destruct IH as (IHc & IHr & IHf & IHl & IHok).
      rewrite IHc, IHr, IHf, IHl. simpl.
      rewrite Hc, Hr, Hf, Hl, <- app_assoc. repeat split; try done.
      intros Hall. apply IHok. by inversion Hall.
    + destruct Hrow as [e He]. unfold bind. rewrite He. simpl.
      rewrite Hc, Hr, Hf, Hl, app_nil_r. repeat split; try done.
      intros Hall. inversion Hall as [|? ? [? Hsome] ?]; subst.
      unfold call_of_row in Hcall. rewrite Hsome in Hcall. done.
Qed.
End SolveFacts.


(** ** The joiner *)

Lemma filter_split_length {A} (f : A -> bool) (l : list A) :
  (length (List.filter f l) + length (List.filter (fun x => negb (f x)) l)
   = length l)%nat.
Proof.
  induction l as [|x l IH]; simpl; [done|].
  destruct (f x); simpl; lia.
Qed.

Section JoinFacts.
Context `{Joiner.JoinCriterion}.
Variable params : ClusterParameters.

Local Abbreviation add := (Joiner.add_to_groups params).
Local Abbreviation step := (Joiner.join_clusters_step params).
Local Abbreviation single := (fun c : Cluster => (c, @nil Cluster)).

(** Adding a cluster opens at most one group, and opens one only when
    the cluster joins none of the groups found so far. *)
Lemma add_to_groups_length groups c :
  (length (add groups c) <= S (length groups))%nat
  /\ (length (add groups c) = S (length groups) ->
      add groups c = groups ++ [single c]).
Proof.
  unfold Joiner.add_to_groups.
  pose proof (filter_split_length (Joiner.touches params c) groups) as Hlen.
  destruct (List.filter (Joiner.touches params c) groups)
    as [|[first rest] others]; simpl in *.
  - rewrite length_app. simpl. split; [lia | done].
  - split; lia.
Qed.

Lemma group_fragments_length clusters : forall groups,
  (length (fold_left add clusters groups)
   <= length groups + length clusters)%nat
  /\ (length (fold_left add clusters groups)
      = (length groups + length clusters)%nat ->
      fold_left add clusters groups = groups ++ map single clusters).
Proof.
  induction clusters as [|c clusters IH]; intros groups; simpl.
  - rewrite app_nil_r. split; [lia | done].
  - destruct (IH (add groups c)) as [Hle Heq].
    destruct (add_to_groups_length groups c) as [Hle1 Heq1].
    split; [lia|]. intros Hlen.
    rewrite Heq by lia. rewrite Heq1 by lia.
    by rewrite <- app_assoc.
Qed.

Lemma join_clusters_step_length clusters :
  (length (step clusters) <= length clusters)%nat.
Proof.
  unfold Joiner.join_clusters_step, Joiner.group_fragments.
  rewrite length_map.
  destruct (group_fragments_length clusters []) as [Hle _]. simpl in Hle.
  lia.
Qed.

(** A pass that merges nothing changes nothing. *)
Lemma join_clusters_step_fixed clusters :
  length (step clusters) = length clusters -> step clusters = clusters.
Proof.
  unfold Joiner.join_clusters_step, Joiner.group_fragments.
  rewrite length_map. intros Hlen.
  destruct (group_fragments_length clusters []) as [_ Heq].
  rewrite Heq by (simpl; lia). simpl.
  rewrite map_map. unfold Joiner.merge_group. simpl. apply map_id.
Qed.

(** With one unit of fuel per cluster the loop ends on a list that a
    further pass leaves alone. *)
Lemma join_loop_stable fuel : forall clusters,
  (length clusters <= fuel)%nat ->
  step (Joiner.join_loop params fuel clusters)
  = Joiner.join_loop params fuel clusters.
Proof.
  induction fuel as [|fuel IH]; intros clusters Hlen; simpl.
  - destruct clusters; [done | simpl in Hlen; lia].
  - destruct (Nat.eqb_spec (length (step clusters)) (length clusters))
      as [Heq|Hne].
    + rewrite (join_clusters_step_fixed clusters Heq).
      by apply join_clusters_step_fixed.
    + apply IH. pose proof (join_clusters_step_length clusters). lia.
Qed.

Lemma join_clusters_stable clusters :
  step (Joiner.join_clusters params clusters)
  = Joiner.join_clusters params clusters.
Proof. unfold Joiner.join_clusters. by apply join_loop_stable. Qed.
End JoinFacts.

Lemma stored_cluster_event group r c :
  stored_cluster group r = Some c ->
  event c = est_event r
  /\ exists ev node,
       group !! est_event r = Some ev
       /\ members ev !! est_cluster_index r = Some node
       /\ label_attr node = Some (label c)
       /\ cloud_data node = Some (cloud (point_cloud c)).
Proof.
  unfold stored_cluster. intros Hc.
  destruct (group !! est_event r) as [ev|]; [|done].
  destruct (members ev !! est_cluster_index r) as [node|] eqn:Hnode; [|done].
  destruct node as [[lbl|] [data|]]; simplify_eq/=.
  split; [done|]. by exists ev, (mkClusterNode (Some lbl) (Some data)).
Qed.

Lemma readable_prefix_keys group dir rows :
  map call_key (readable_prefix group dir rows)
  `prefix_of` map (row_key dir) rows.
Proof.
  induction rows as [|r rows IH]; simpl; [done|].
  unfold call_of_row. destruct (stored_cluster group r) as [c|] eqn:Hc; simpl.
  - apply stored_cluster_event in Hc as [Hev _].
    unfold call_key at 1, row_key at 1. simpl. rewrite Hev.
    by apply prefix_cons.
  - apply prefix_nil.
Qed.

Lemma readable_prefix_full group dir rows :
  Forall (fun r => is_Some (stored_cluster group r)) rows ->
  map call_key (readable_prefix group dir rows) = map (row_key dir) rows.
Proof.
  induction 1 as [|r rows [c Hc] _ IH]; simpl; [done|].
  unfold call_of_row. rewrite Hc. simpl. rewrite IH. f_equal.
  apply stored_cluster_event in Hc as [Hev _].
  unfold call_key, row_key. simpl. by rewrite Hev.
Qed.

Lemma prefix_NoDup {A} (l1 l2 : list A) :
  l1 `prefix_of` l2 -> NoDup l2 -> NoDup l1.
Proof. intros [k ->] Hnd. by apply NoDup_app in Hnd as [? _]. Qed.

Section SolveRun.
Context `{SolveRoutines}.
Variable run : Z.
Variable solver_params : SolverParameters.

(** Whatever ends the loop, the two steps after it leave the calls and
    [results] alone; the result file is written only after a loop that
    did not raise. *)
Lemma solve_finish (loop : M SolveState unit) (after : M SolveState unit)
  s :
  (forall s', sv_calls (fst (after s')) = sv_calls s'
              /\ sv_results (fst (after s')) = sv_results s'
              /\ sv_result_file (fst (after s')) = Some (sv_results s')
              /\ snd (after s') = inr tt) ->
  let out := (loop ;; after) s in
  sv_calls (fst out) = sv_calls (fst (loop s))
  /\ sv_results (fst out) = sv_results (fst (loop s))
  /\ (sv_result_file (fst out) = Some (sv_results (fst (loop s)))
      \/ sv_result_file (fst out) = sv_result_file (fst (loop s)))
  /\ (snd (loop s) = inr tt ->
      sv_result_file (fst out) = Some (sv_results (fst (loop s)))
      /\ snd out = inr tt).
Proof.
  intros Hafter. cbn zeta. unfold bind.
  destruct (loop s) as [s' [e|[]]]; simpl.
  - repeat split; try done. by right.
  - destruct (Hafter s') as (Hc & Hr & Hf & Hok).
    repeat split; try done. by left.
Qed.

Lemma solve_after_write l s' :
  let after := (modify sv_write_results ;; modify (sv_put_log l))
               : M SolveState unit in
  sv_calls (fst (after s')) = sv_calls s'
  /\ sv_results (fst (after s')) = sv_results s'
  /\ sv_result_file (fst (after s')) = Some (sv_results s')
  /\ snd (after s') = inr tt.
Proof. done. Qed.

End SolveRun.



(** The earlier driver skips a run without a gate or without one of the
    two files in the same way, posting its WAIT status. *)
Lemma phase_4_interp_skips `{SolveRoutines}
  (run : Z) (solver_params : SolverParameters) (inp : SolveInputs) :
  in_pid inp = None \/ in_cluster_file inp = None \/ in_estimates inp = None ->
  phase_4_interp run solver_params inp sv_init
  = (mkSolveState 0 [mkStatusMessage run WAIT 100] [] [] [] None, inr tt).
Proof.
  unfold phase_4_interp. intros [Hpid|[Hfile|Hest]].
  - by rewrite Hpid.
  - destruct (in_pid inp); [|done]. by rewrite Hfile.
  - destruct (in_pid inp); [|done]. rewrite Hest.
    by destruct (in_cluster_file inp).
Qed.


(** ** The drivers on any table the query may return *)

(** The table of the model is one the query may return. *)
Lemma estimates_gated_polars_gated pid sp estimate_df :
  polars_gated pid sp estimate_df
    (sort_polar_descending
       (filter (fun r => Is_true (passes_gate pid sp r)) estimate_df))
    (estimates_gated pid sp estimate_df).
Proof.
  split; [apply merge_sort_Permutation|].
  split; [|done]. apply StronglySorted_merge_sort; apply _.
Qed.

(** Whatever the order of the table and the choice among rows of equal
    polar angle, the table holds one row for each event, all its rows
    are accepted rows of the estimates, and the row of an event has the
    largest polar angle of the accepted rows of the event. *)
Lemma polars_gated_rows pid sp estimate_df sorted gated :
  polars_gated pid sp estimate_df sorted gated ->
  NoDup (map est_event gated)
  /\ (forall r, r ∈ gated ->
        r ∈ estimate_df /\ passes_gate pid sp r = true)
  /\ (forall r', r' ∈ estimate_df -> passes_gate pid sp r' = true ->
        exists r, r ∈ gated /\ est_event r = est_event r'
                  /\ (est_polar r' <= est_polar r)%Q).
Proof.
  intros (Hsorted & Hdesc & Hgated). split; [|split].
  - rewrite Hgated. apply unique_event_first_NoDup.
  - intros r Hr. rewrite Hgated in Hr.
    apply unique_event_first_elem in Hr as [Hr _].
    rewrite Hsorted in Hr.
    apply list_elem_of_filter in Hr as [Hpass Hr].
    split; [done|]. by apply Is_true_true.
  - intros r' Hr' Hpass.
    assert (Hin : r' ∈ sorted).
    { rewrite Hsorted. apply list_elem_of_filter.
      split; [by apply Is_true_true | done]. }
    destruct (unique_event_first_covers sorted ∅ r' Hin) as (r & Hr & Hev).
    { apply not_elem_of_empty. }
    exists r. split; [by rewrite Hgated|]. split; [done|].
    by eapply unique_event_first_largest.
Qed.

Section SolveGatedRun.
Context `{SolveRoutines}.
Variable run : Z.
Variable solver_params : SolverParameters.

(** With its four prerequisites in place and the member [cluster] a
    group, [phase_solve] is [phase_solve_gated] on the gated table. *)
Lemma phase_solve_on_gated det_params inp pid gas cluster_group
  estimate_df :
  in_pid inp = Some pid ->
  in_target inp = GasTarget gas ->
  in_cluster_file inp = Some (Some (IsGroup cluster_group)) ->
  in_estimates inp = Some estimate_df ->
  phase_solve run solver_params det_params inp
  = phase_solve_gated run det_params pid gas cluster_group
      (estimates_gated pid solver_params estimate_df).
Proof.
  intros Hpid Htarget Hfile Hest. unfold phase_solve, phase_solve_gated.
  by rewrite Hpid, Htarget, Hfile, Hest.
Qed.

Lemma phase_4_interp_on_gated inp pid cluster_file estimate_df :
  in_pid inp = Some pid ->
  in_cluster_file inp = Some cluster_file ->
  in_estimates inp = Some estimate_df ->
  phase_4_interp run solver_params inp
  = phase_4_interp_gated run solver_params pid cluster_file
      (estimates_gated pid solver_params estimate_df).
Proof.
  intros Hpid Hfile Hest. unfold phase_4_interp, phase_4_interp_gated.
  by rewrite Hpid, Hfile, Hest.
Qed.

(** The calls of [phase_solve] on a gated table: one for each row, in the
    order of the table, up to the first row whose cluster cannot be
    read; when every cluster can be read the phase returns with the
    result file written. *)
Lemma phase_solve_gated_run det_params pid gas cluster_group gated :
  let out :=
    phase_solve_gated run det_params pid gas cluster_group gated sv_init in
  sv_calls (fst out) = readable_prefix cluster_group (Some NONE) gated
  /\ (gated <> [] ->
      Forall (fun r => is_Some (stored_cluster cluster_group r)) gated ->
      snd out = inr tt
      /\ sv_result_file (fst out) = Some (sv_results (fst out))).
Proof.
  cbn zeta. unfold phase_solve_gated.
  destruct gated as [|r0 rows] eqn:Hg; [done|]. rewrite <- Hg.
  assert (Hlen : (len gated =? 0) = false).
  { apply Z.eqb_neq. unfold len. rewrite Hg. simpl. lia. }
  rewrite Hlen.
  match goal with |- context [(?loop ;; ?after) sv_init] =>
    destruct (solve_finish loop after sv_init) as (Hc & Hr & _ & Hok)
  end.
  { intros s'. apply solve_after_write. }
  match type of Hok with
  | context [for_each (solve_row _ ?fv ?pr _ _ _ ?ip ?dp)] =>
    destruct (solve_rows_run run fv pr cluster_group (Some NONE)
                (nucleus pid) ip dp gated sv_init)
      as (Hcalls & _ & _ & _ & Hloop)
  end.
  rewrite Hc, Hr, Hcalls. split; [done|].
  intros _ Hall. destruct (Hok (Hloop Hall)) as [Hfile' Hret]. done.
Qed.

(** The same for [phase_4_interp], whose guesses carry no direction. *)
Lemma phase_4_interp_gated_run pid cluster_group gated :
  let out :=
    phase_4_interp_gated run solver_params pid
      (Some (IsGroup cluster_group)) gated sv_init in
  sv_calls (fst out) = readable_prefix cluster_group None gated
  /\ (gated <> [] ->
      Forall (fun r => is_Some (stored_cluster cluster_group r)) gated ->
      snd out = inr tt
      /\ sv_result_file (fst out) = Some (sv_results (fst out))).
Proof.
  cbn zeta. unfold phase_4_interp_gated.
  destruct gated as [|r0 rows] eqn:Hg; [done|]. rewrite <- Hg.
  assert (Hlen : (len gated =? 0) = false).
  { apply Z.eqb_neq. unfold len. rewrite Hg. simpl. lia. }
  rewrite Hlen.
  match goal with |- context [(?loop ;; ?after) sv_init] =>
    destruct (solve_finish loop after sv_init) as (Hc & Hr & _ & Hok)
  end.
  { done. }
  match type of Hok with
  | context [for_each (solve_row _ ?fv ?pr _ _ _ ?ip ?dp)] =>
    destruct (solve_rows_run run fv pr cluster_group None
                (nucleus pid) ip dp gated sv_init)
      as (Hcalls & _ & _ & _ & Hloop)
  end.
  rewrite Hc, Hr, Hcalls. split; [done|].
  intros _ Hall. destruct (Hok (Hloop Hall)) as [Hfile' Hret]. done.
Qed.
End SolveGatedRun.

(** The events of the calls made on a table with one row for each event
    are distinct. *)
Lemma readable_prefix_events group dir rows :
  NoDup (map est_event rows) ->
  NoDup (map (fun c => event (call_cluster c))
           (readable_prefix group dir rows)).
Proof.
  intros Hnd. eapply prefix_NoDup; [|exact Hnd].
  destruct (readable_prefix_keys group dir rows) as [k Hk].
  exists (map (fun x => fst (fst x)) k).
  assert (Hl : map est_event rows
               = map (fun x => fst (fst x)) (map (row_key dir) rows))
    by (rewrite map_map; done).
  rewrite Hl, Hk, map_app, map_map. done.
Qed.

(** * The claims *)

(** ** C1 *)

(** C1, as stated, fails: on an estimate table without rows the gated
    list is empty and [phase_solve] returns without writing a result
    file, empty or not. *)
Lemma empty_gate_leaves_no_result_file :
  let out :=
    @phase_solve sample_solve_routines 1 sample_solver_params
      sample_detector_params (sample_solve_inputs []) sv_init in
  estimates_gated sample_pid sample_solver_params [] = []
  /\ sv_result_file (fst out) = None
  /\ sv_result_file (fst out) <> Some [].
Proof. split; [reflexivity|]. split; [reflexivity|]. discriminate. Qed.

(** C1, amended. When the gating pipeline leaves no candidate event, the
    solve phase skips the run: it posts a WAIT status, fits no cluster,
    writes no result file and returns; [phase_solve] logs the condition as
    a warning, not an error, and [phase_4_interp] logs nothing. *)
Theorem empty_gate_skips_the_run `{SolveRoutines}
  (run : Z) (solver_params : SolverParameters)
  (det_params : DetectorParameters) (inp : SolveInputs)
  (pid : ParticleID) (gas : string) (cluster_group : gmap Z EventNode)
  (estimate_df : list EstimateRow) :
  in_pid inp = Some pid ->
  in_target inp = GasTarget gas ->
  in_cluster_file inp = Some (Some (IsGroup cluster_group)) ->
  in_estimates inp = Some estimate_df ->
  estimates_gated pid solver_params estimate_df = [] ->
  phase_solve run solver_params det_params inp sv_init
  = (mkSolveState 0 [mkStatusMessage run WAIT 0]
       [(WARN, NoEventsWithinPID run)] [] [] None, inr tt)
  /\ phase_4_interp run solver_params inp sv_init
     = (mkSolveState 0 [mkStatusMessage run WAIT 100] [] [] [] None, inr tt).
Proof.
  intros Hpid Htarget Hfile Hest Hempty.
  unfold phase_solve, phase_4_interp.
  rewrite Hpid, Htarget, Hfile, Hest, Hempty. done.
Qed.

Lemma empty_gate_skips_the_run_witness :
  @phase_solve sample_solve_routines 1 sample_solver_params
    sample_detector_params (sample_solve_inputs [sample_row 4 0 50 1 150])
    sv_init
  = (mkSolveState 0 [mkStatusMessage 1 WAIT 0]
       [(WARN, NoEventsWithinPID 1)] [] [] None, inr tt).
Proof.
  apply (@empty_gate_skips_the_run sample_solve_routines 1
           sample_solver_params sample_detector_params
           (sample_solve_inputs [sample_row 4 0 50 1 150]) sample_pid
           "gas.json" sample_cluster_file [sample_row 4 0 50 1 150]
           eq_refl eq_refl eq_refl eq_refl eq_refl).
Defined.

(** ** C2 *)

(** C2. The gating stage hands the solver at most one candidate per
    event: among the estimate rows of an event that pass the particle-ID
    cut and whose [ic_amplitude] lies strictly between [ic_min_val] and
    [ic_max_val], the row kept is one whose polar angle is the largest
    (sort by polar descending, keep the first row of each event), and the
    solver is called with the guess made of the fields of that row. This
    holds of every table the query may return, whatever the order of its
    rows: each driver calls the solver on the rows in the order of the
    table, with the event, the cluster index and the guess of the row,
    up to the first row whose cluster cannot be read, and on every row
    when all clusters can be read. [phase_solve] and [phase_4_interp] are
    these loops on [estimates_gated], which is such a table. *)
Theorem gating_keeps_largest_polar_per_event `{SolveRoutines}
  (run : Z) (solver_params : SolverParameters)
  (det_params : DetectorParameters) (pid : ParticleID) (gas : string)
  (cluster_group : gmap Z EventNode)
  (estimate_df sorted gated : list EstimateRow) :
  let accepted r :=
    is_cols_inside pid (est_dEdx r) (est_brho r) = true
    /\ (ic_min_val solver_params < est_ic_amplitude r)%Q
    /\ (est_ic_amplitude r < ic_max_val solver_params)%Q in
  let readable r := is_Some (stored_cluster cluster_group r) in
  let calls :=
    sv_calls
      (fst (phase_solve_gated run det_params pid gas cluster_group gated
              sv_init)) in
  let legacy_calls :=
    sv_calls
      (fst (phase_4_interp_gated run solver_params pid
              (Some (IsGroup cluster_group)) gated sv_init)) in
  polars_gated pid solver_params estimate_df sorted gated ->
  NoDup (map est_event gated)
  /\ (forall r, r ∈ gated -> r ∈ estimate_df /\ accepted r)
  /\ (forall r', r' ∈ estimate_df -> accepted r' ->
        exists r, r ∈ gated /\ est_event r = est_event r'
                  /\ (est_polar r' <= est_polar r)%Q)
  /\ map call_key calls `prefix_of` map (row_key (Some NONE)) gated
  /\ (Forall readable gated ->
      map call_key calls = map (row_key (Some NONE)) gated)
  /\ NoDup (map (fun c => event (call_cluster c)) calls)
  /\ map call_key legacy_calls `prefix_of` map (row_key None) gated
  /\ (Forall readable gated ->
      map call_key legacy_calls = map (row_key None) gated)
  /\ NoDup (map (fun c => event (call_cluster c)) legacy_calls)
  /\ polars_gated pid solver_params estimate_df
       (sort_polar_descending
          (filter (fun r => Is_true (passes_gate pid solver_params r))
             estimate_df))
       (estimates_gated pid solver_params estimate_df)
  /\ (forall inp,
        in_pid inp = Some pid ->
        in_target inp = GasTarget gas ->
        in_cluster_file inp = Some (Some (IsGroup cluster_group)) ->
        in_estimates inp = Some estimate_df ->
        phase_solve run solver_params det_params inp
        = phase_solve_gated run det_params pid gas cluster_group
            (estimates_gated pid solver_params estimate_df)
        /\ phase_4_interp run solver_params inp
           = phase_4_interp_gated run solver_params pid
               (Some (IsGroup cluster_group))
               (estimates_gated pid solver_params estimate_df)).
Proof.
  intros accepted readable calls legacy_calls Hgated.
  destruct (polars_gated_rows _ _ _ _ _ Hgated) as (Hnd & Hin & Hmax).
  destruct (phase_solve_gated_run run det_params pid gas cluster_group gated)
    as [Hcalls _].
  destruct (phase_4_interp_gated_run run solver_params pid cluster_group gated)
    as [Hlegacy _].
  fold calls in Hcalls. fold legacy_calls in Hlegacy.
  rewrite Hcalls, Hlegacy.
  split; [exact Hnd|]. split; [|split].
  - intros r Hr. destruct (Hin r Hr) as [Hdf Hpass].
    split; [done|]. by apply passes_gate_true.
  - intros r' Hr' Hacc. apply Hmax; [done|]. by apply passes_gate_true.
  - split; [apply readable_prefix_keys|].
    split; [apply readable_prefix_full|].
    split; [by apply readable_prefix_events|].
    split; [apply readable_prefix_keys|].
    split; [apply readable_prefix_full|].
    split; [by apply readable_prefix_events|].
    split; [apply estimates_gated_polars_gated|].
    intros inp Hpid Htarget Hfile Hest. split.
    + by apply phase_solve_on_gated.
    + by apply phase_4_interp_on_gated.
Qed.

Lemma gating_keeps_largest_polar_per_event_witness :
  let gated :=
    [sample_row 11 0 5 1 150; sample_row 3 1 5 (3 # 2) 150] in
  map call_key
    (sv_calls
       (fst (@phase_solve_gated sample_solve_routines 1
               sample_detector_params sample_pid "gas.json"
               sample_five_cluster_file gated sv_init)))
  = map (row_key (Some NONE)) gated
  /\ exists r, r ∈ gated /\ est_event r = 3 /\ (1 # 2 <= est_polar r)%Q.
Proof.
  destruct (@gating_keeps_largest_polar_per_event sample_solve_routines 1
              sample_solver_params sample_detector_params sample_pid
              "gas.json" sample_five_cluster_file
              (sample_estimates ++ [sample_row 11 0 5 1 150])
              [sample_row 3 1 5 (3 # 2) 150; sample_row 11 0 5 1 150;
               sample_row 3 0 5 (1 # 2) 150]
              [sample_row 11 0 5 1 150; sample_row 3 1 5 (3 # 2) 150])
    as (_ & _ & Hmax & _ & Hall & _).
  - split; [|split].
    + vm_compute. symmetry.
      exact (Permutation_cons_append [_; _] _).
    + repeat constructor; unfold polar_ge, Qle; simpl; lia.
    + apply perm_swap.
  - split.
    + apply Hall. repeat constructor; by eexists.
    + destruct (Hmax (sample_row 3 0 5 (1 # 2) 150)) as (r & Hr & Hev & Hle).
      * apply list_elem_of_here.
      * split; [reflexivity|]. split; reflexivity.
      * exists r. split; [exact Hr|]. split; [exact Hev | exact Hle].
Defined.

(** ** C3 *)

(** C3. For every event of [min_event..max_event] whose loaded cloud has
    fewer than [min_write_size] points, [phase_2] does not call
    [clusterize] on it and writes nothing for the event, not even an empty
    event group; an event whose cloud has at least [min_write_size] points
    is clustered, joined and cleaned, and the outcome is written. *)
Theorem small_clouds_are_not_clustered `{ClusterRoutines}
  (cloud_group : CloudGroup) (cluster_params : ClusterParameters)
  (idx : Z) (pc : PointCloud) :
  let final := fst (phase_2 (Some cloud_group) cluster_params) in
  cloud_min_event cloud_group <= idx <= cloud_max_event cloud_group ->
  loaded_cloud cloud_group idx = Some pc ->
  (len (cloud pc) < min_write_size cluster_params ->
   (pc ∉ p2_clusterized final) /\ p2_events final !! idx = None)
  /\ (min_write_size cluster_params <= len (cloud pc) ->
      pc ∈ p2_clusterized final
      /\ p2_events final !! idx =
         Some (event_node_of
                 (cleanup_clusters
                    (join_clusters (clusterize pc cluster_params)
                       cluster_params)
                    cluster_params))).
Proof.
  intros final Hrange Hload.
  destruct (phase_2_run cloud_group cluster_params) as (_ & He & _ & Hc).
  fold final in He, Hc. split; intros Hsize.
  - split.
    + rewrite Hc, list_elem_of_In, filter_In. intros [_ Hbig].
      unfold big_enough in Hbig. apply negb_true_iff, Z.ltb_ge in Hbig. lia.
    + rewrite He, decide_True by done. unfold expected_event.
      rewrite Hload. unfold big_enough.
      by rewrite (proj2 (Z.ltb_lt _ _) Hsize).
  - assert (Hbig : big_enough cluster_params pc = true).
    { unfold big_enough. apply negb_true_iff, Z.ltb_ge. lia. }
    split.
    + rewrite Hc, list_elem_of_In, filter_In. split; [|done].
      apply list_elem_of_In, list_elem_of_omap. exists idx.
      split; [|done]. apply elem_of_range. lia.
    + rewrite He, decide_True by done. unfold expected_event.
      by rewrite Hload, Hbig.
Qed.

Lemma small_clouds_are_not_clustered_witness :
  let final :=
    fst (@phase_2 sample_cluster_routines (Some sample_cloud_group)
           sample_cluster_params) in
  ((mkPointCloud 0 [sample_point 1] ∉ p2_clusterized final)
   /\ p2_events final !! 0 = None)
  /\ mkPointCloud 2 [sample_point 1; sample_point 2; sample_point 3]
     ∈ p2_clusterized final.
Proof.
  split.
  - apply (@small_clouds_are_not_clustered sample_cluster_routines
             sample_cloud_group sample_cluster_params 0
             (mkPointCloud 0 [sample_point 1]));
      [simpl; lia | reflexivity | reflexivity].
  - apply (@small_clouds_are_not_clustered sample_cluster_routines
             sample_cloud_group sample_cluster_params 2
             (mkPointCloud 2 [sample_point 1; sample_point 2; sample_point 3]));
      [simpl; lia | reflexivity | simpl; unfold len; simpl; lia].
Defined.

(** ** C4 *)

(** C4, as stated, fails for [phase_4_interp]. Without a particle-ID
    gate it skips the run and reports no reason: it has no log, and all
    it posts is the WAIT status. And it loads no target: with a target
    that is not a gas target, and the other prerequisites in place, it
    fits a cluster and writes the result file. *)
Lemma earlier_driver_reports_no_reason :
  let no_gate :=
    mkSolveInputs None (GasTarget "gas.json")
      (Some (Some (IsGroup sample_cluster_file))) (Some sample_estimates) in
  let solid_target :=
    mkSolveInputs (Some sample_pid) (SolidTarget "foil.json")
      (Some (Some (IsGroup sample_cluster_file))) (Some sample_estimates) in
  let skipped :=
    @phase_4_interp sample_solve_routines 1 sample_solver_params no_gate
      sv_init in
  let fitted :=
    @phase_4_interp sample_solve_routines 1 sample_solver_params
      solid_target sv_init in
  (snd skipped = inr tt
   /\ sv_queue (fst skipped) = [mkStatusMessage 1 WAIT 100]
   /\ sv_log (fst skipped) = [])
  /\ (snd fitted = inr tt
      /\ length (sv_calls (fst fitted)) = 1%nat
      /\ length <$> sv_result_file (fst fitted) = Some 1%nat).
Proof. repeat split; reflexivity. Qed.

(** C4, amended. When a run-level prerequisite is missing (the
    particle-ID gate does not deserialise, the target is not a gas
    target, the cluster file or the estimate file does not exist),
    [phase_solve] skips the whole run: it posts a WAIT status, logs the
    reason as a warning, fits no cluster, writes no result file and does
    not raise. [phase_4_interp] skips the run in the same way when the
    gate, the cluster file or the estimate file is missing, but all it
    reports is its WAIT status; it never looks at the target, so a
    target that is not a gas target does not make it skip. *)
Theorem missing_prerequisite_skips_the_run `{SolveRoutines}
  (run : Z) (solver_params : SolverParameters)
  (det_params : DetectorParameters) (inp : SolveInputs) :
  in_pid inp = None
  \/ (forall gas, in_target inp <> GasTarget gas)
  \/ in_cluster_file inp = None
  \/ in_estimates inp = None ->
  phase_solve run solver_params det_params inp sv_init
  = (mkSolveState 0 [mkStatusMessage run WAIT 0]
       [(WARN, skip_reason run inp)] [] [] None, inr tt)
  /\ (in_pid inp = None \/ in_cluster_file inp = None
      \/ in_estimates inp = None ->
      phase_4_interp run solver_params inp sv_init
      = (mkSolveState 0 [mkStatusMessage run WAIT 100] [] [] [] None,
         inr tt))
  /\ (forall target,
        phase_4_interp run solver_params inp
        = phase_4_interp run solver_params
            (mkSolveInputs (in_pid inp) target (in_cluster_file inp)
               (in_estimates inp))).
Proof.
  intros Hmissing. split; [|split].
  - unfold phase_solve, skip_reason.
    destruct Hmissing as [Hpid|[Htarget|[Hfile|Hest]]].
    + by rewrite Hpid.
    + destruct (in_pid inp); [|done].
      destruct (in_target inp) as [gas| |]; [|done..].
      by destruct (Htarget gas).
    + destruct (in_pid inp); [|done].
      destruct (in_target inp); [|done..]. by rewrite Hfile.
    + destruct (in_pid inp); [|done].
      destruct (in_target inp); [|done..]. rewrite Hest.
      by destruct (in_cluster_file inp).
  - apply phase_4_interp_skips.
  - intros target. by destruct inp.
Qed.

Lemma missing_prerequisite_skips_the_run_witness :
  let inp :=
    mkSolveInputs (Some sample_pid) (GasTarget "gas.json")
      (Some (Some (IsGroup sample_cluster_file))) None in
  @phase_solve sample_solve_routines 1 sample_solver_params
    sample_detector_params inp sv_init
  = (mkSolveState 0 [mkStatusMessage 1 WAIT 0]
       [(WARN, ClustersOrEstimatesMissing 1)] [] [] None, inr tt)
  /\ @phase_4_interp sample_solve_routines 1 sample_solver_params inp
       sv_init
     = (mkSolveState 0 [mkStatusMessage 1 WAIT 100] [] [] [] None, inr tt).
Proof.
  intros inp.
  destruct (@missing_prerequisite_skips_the_run sample_solve_routines 1
              sample_solver_params sample_detector_params inp)
    as (Hnew & Hold & _).
  - right. right. right. reflexivity.
  - split; [exact Hnew|]. apply Hold. right. right. reflexivity.
Defined.

(** ** C5 *)


Lemma sample_trace_file_complete :
  complete_trace_file sample_trace_file 5 8 sample_event_group
    sample_frib_evt_group.
Proof.
  split; [reflexivity|]. split; [reflexivity|].
  eexists. split; [reflexivity|]. split; [reflexivity|]. by eexists.
Defined.


(** ** C6 *)



(** ** C7 *)

(** C7. For every event [phase_2] processes to completion, the event
    group it leaves holds the attribute [nclusters], equal to the number of
    cleaned clusters, and for each cleaned cluster one record under its
    index in the list, holding the cluster's label and its points; the
    count equals the number of records. *)
Theorem event_group_holds_the_cleaned_clusters `{ClusterRoutines}
  (cloud_group : CloudGroup) (cluster_params : ClusterParameters)
  (idx : Z) (ev : EventNode) :
  p2_events (fst (phase_2 (Some cloud_group) cluster_params)) !! idx
  = Some ev ->
  exists pc,
    loaded_cloud cloud_group idx = Some pc
    /\ let cleaned :=
         cleanup_clusters
           (join_clusters (clusterize pc cluster_params) cluster_params)
           cluster_params in
       nclusters ev = Some (len cleaned)
       /\ (forall (cidx : nat) c,
             cleaned !! cidx = Some c ->
             members ev !! Z.of_nat cidx
             = Some (mkClusterNode (Some (label c))
                       (Some (cloud (point_cloud c)))))
       /\ size (members ev) = length cleaned
       /\ nclusters ev = Some (Z.of_nat (size (members ev))).
Proof.
  intros Hev.
  destruct (phase_2_run cloud_group cluster_params) as (_ & He & _).
  rewrite He in Hev. destruct (decide _); [|done].
  unfold expected_event in Hev.
  destruct (loaded_cloud cloud_group idx) as [pc|]; [|done].
  destruct (big_enough cluster_params pc); [|done].
  injection Hev as <-. exists pc. split; [done|]. cbn zeta.
  fold (cleaned_clusters cluster_params pc).
  split; [done|]. split; [|split].
  - intros cidx c Hc. rewrite event_node_members.
    rewrite decide_True by lia. rewrite Nat2Z.id, Hc. done.
  - apply event_node_size.
  - rewrite event_node_size. done.
Qed.

Lemma event_group_holds_the_cleaned_clusters_witness :
  exists ev,
    p2_events
      (fst (@phase_2 sample_cluster_routines (Some sample_cloud_group)
              sample_cluster_params)) !! 2 = Some ev
    /\ nclusters ev = Some 1
    /\ size (members ev) = 1%nat.
Proof.
  eexists. split; [reflexivity|].
  destruct (@event_group_holds_the_cleaned_clusters sample_cluster_routines
              sample_cloud_group sample_cluster_params 2 _ eq_refl)
    as (pc & Hpc & Hn & _ & Hsize & _).
  injection Hpc as <-. split; [exact Hn | exact Hsize].
Defined.

(** ** C8 *)

(** C8. Every dataset the point-cloud phase writes carries the four
    ion-chamber attributes; they start at the sentinel -1.0 and are
    replaced by measured values exactly when a qualifying peak is found (a
    good peak under IC time correction, or a triggering peak whose
    multiplicity is within the configured bound); when the ion-chamber
    data is missing or unusable they stay at -1.0, and the calibrated
    cloud is written in every case. *)
Theorem ic_attributes_default_to_sentinel `{PointcloudRoutines}
  (run : Z) (frib_params : FribParameters)
  (detector_params : DetectorParameters) (tf : TraceFile)
  (min_event max_event : Z) (event_group frib_evt_group : gmap Z RawData) :
  let final :=
    fst (phase_pointcloud run frib_params detector_params (Some tf) p1_init) in
  complete_trace_file tf min_event max_event event_group frib_evt_group ->
  (forall pc s,
     p1_datasets s !! event_number pc = None ->
     p1_datasets (fst (create_cloud_dataset pc s)) !! event_number pc
     = Some (mkCloudDataset (-1) (-1) (-1) (-1) (zeros_like (cloud pc))))
  /\ (forall idx event_data,
        min_event <= idx <= max_event ->
        event_group !! idx = Some event_data ->
        is_Some (p1_datasets final !! idx))
  /\ (forall idx ds,
        p1_datasets final !! idx = Some ds ->
        exists event_data,
          event_group !! idx = Some event_data
          /\ ds_data ds
             = calibrated_cloud frib_params detector_params frib_evt_group
                 (corrector_of detector_params) event_data idx
          /\ match qualifying_ic frib_params frib_evt_group idx with
             | Some (mult, peak) =>
                 ic_attrs ds
                 = (amplitude peak, integral peak, centroid peak, mult)
             | None => ic_attrs ds = ((-1)%Q, (-1)%Q, (-1)%Q, (-1)%Q)
             end
          /\ (frib_evt_group !! idx = None ->
              ic_attrs ds = ((-1)%Q, (-1)%Q, (-1)%Q, (-1)%Q))).
Proof.
  intros final Hcomplete.
  destruct (phase_pointcloud_run run frib_params detector_params tf
              min_event max_event event_group frib_evt_group Hcomplete)
    as (_ & Hd & _).
  fold final in Hd. split; [|split].
  - intros pc s Hfree. rewrite create_cloud_dataset_run by done. simpl.
    apply lookup_insert_eq.
  - intros idx event_data Hidx Hev.
    rewrite Hd, decide_True, Hev by done. by eexists.
  - intros idx ds Hds. rewrite Hd in Hds.
    destruct (decide _); [|done].
    destruct (event_group !! idx) as [event_data|]; [|done].
    simpl in Hds. injection Hds as <-. exists event_data.
    split; [done|]. unfold expected_dataset, expected_ic_attrs.
    assert (Hmissing : frib_evt_group !! idx = None ->
                       qualifying_ic frib_params frib_evt_group idx = None).
    { intros Hnone. unfold qualifying_ic. by rewrite Hnone. }
    destruct (qualifying_ic frib_params frib_evt_group idx) as [[mult peak]|];
      simpl; repeat split; try done.
    intros Hnone. by specialize (Hmissing Hnone).
Qed.

Lemma ic_attributes_default_to_sentinel_witness :
  let final :=
    fst (@phase_pointcloud sample_pointcloud_routines 1 sample_frib_params
           sample_detector_params (Some sample_trace_file) p1_init) in
  exists ds5 ds7,
    p1_datasets final !! 5 = Some ds5
    /\ ic_attrs ds5 = (40%Q, 50%Q, 100%Q, 1%Q)
    /\ p1_datasets final !! 7 = Some ds7
    /\ ic_attrs ds7 = ((-1)%Q, (-1)%Q, (-1)%Q, (-1)%Q).
Proof.
  destruct (@ic_attributes_default_to_sentinel sample_pointcloud_routines 1
              sample_frib_params sample_detector_params sample_trace_file
              5 8 sample_event_group sample_frib_evt_group
              sample_trace_file_complete) as (_ & _ & Hall).
  eexists. eexists. split; [reflexivity|]. split.
  - destruct (Hall 5 _ eq_refl) as (d & _ & _ & Hattrs & _). exact Hattrs.
  - split; [reflexivity|].
    destruct (Hall 7 _ eq_refl) as (d & _ & _ & _ & Hmiss).
    apply Hmiss. reflexivity.
Defined.

(** ** C9 *)

(** On fragments of one, one and two points the first pass merges the
    first two, and only the second pass merges the result with the third:
    a single pass is not idempotent, the repeated passes are. *)
Example join_clusters_sample_passes :
  @Joiner.join_clusters_step sample_join_criterion sample_cluster_params
    [sample_fragment 0 [1]; sample_fragment 1 [2]; sample_fragment 2 [3; 4]]
  = [sample_fragment 0 [1; 2]; sample_fragment 2 [3; 4]]
  /\ @Joiner.join_clusters sample_join_criterion sample_cluster_params
       [sample_fragment 0 [1]; sample_fragment 1 [2]; sample_fragment 2 [3; 4]]
     = [sample_fragment 0 [1; 2; 3; 4]].
Proof. split; reflexivity. Qed.

(** C9. [join_clusters] is idempotent: for every list of clusters and
    every configuration, joining the output of [join_clusters] again gives
    the same list (no further merge is possible). *)
Theorem join_clusters_idempotent `{Joiner.JoinCriterion}
  (params : ClusterParameters) (clusters : list Cluster) :
  Joiner.join_clusters params (Joiner.join_clusters params clusters)
  = Joiner.join_clusters params clusters.
Proof.
  pose proof (join_clusters_stable params clusters) as Hstable.
  set (joined := Joiner.join_clusters params clusters) in *.
  unfold Joiner.join_clusters at 1.
  clearbody joined. destruct joined as [|c rest]; [done|].
  cbn [length Joiner.join_loop]. rewrite Hstable.
  by rewrite Nat.eqb_refl.
Qed.

(** ** C10 *)

(** C10. With IC time correction on and a good IC peak found for an
    event, the computed correction is passed to the z calibration only
    when it is strictly less than 512.0 time buckets; at 512.0 or more the
    cloud is calibrated without it; the cloud is written in both cases. *)
Theorem ic_correction_used_below_512 `{PointcloudRoutines}
  (run : Z) (frib_params : FribParameters)
  (detector_params : DetectorParameters) (tf : TraceFile)
  (min_event max_event : Z) (event_group frib_evt_group : gmap Z RawData)
  (idx : Z) (event_data frib_data : RawData) (mult : Q) (peak : Peak) :
  let final :=
    fst (phase_pointcloud run frib_params detector_params (Some tf) p1_init) in
  let frib_event := make_frib_event frib_data idx frib_params in
  let ic_cor :=
    frib_correct_ic_time frib_event peak frib_params
      (get_frequency detector_params) in
  let calibrated ic :=
    calibrate_z_position
      (micromegas_time_bucket detector_params)
      (window_time_bucket detector_params)
      (detector_length detector_params)
      (corrector_of detector_params) ic
      (cloud_from_get_event event_data idx) in
  complete_trace_file tf min_event max_event event_group frib_evt_group ->
  min_event <= idx <= max_event ->
  event_group !! idx = Some event_data ->
  frib_evt_group !! idx = Some frib_data ->
  correct_ic_time frib_params = true ->
  get_good_ic_peak frib_event frib_params = Some (mult, peak) ->
  exists ds,
    p1_datasets final !! idx = Some ds
    /\ ((ic_cor < 512)%Q ->
        ds_data ds = calibrated (Some ic_cor)
        /\ forall ic, (idx, ic) ∈ p1_calibrations final -> ic = Some ic_cor)
    /\ ((512 <= ic_cor)%Q ->
        ds_data ds = calibrated None
        /\ forall ic, (idx, ic) ∈ p1_calibrations final -> ic = None).
Proof.
  intros final frib_event ic_cor calibrated Hcomplete Hidx Hev Hfrib Hon Hgood.
  destruct (phase_pointcloud_run run frib_params detector_params tf
              min_event max_event event_group frib_evt_group Hcomplete)
    as (_ & Hd & Hc & _).
  fold final in Hd, Hc.
  assert (Happlied :
    applied_ic_correction frib_params detector_params frib_evt_group idx
    = if Qltb ic_cor 512 then Some ic_cor else None).
  { unfold applied_ic_correction, computed_ic_correction.
    rewrite Hfrib, Hon. fold frib_event. rewrite Hgood. done. }
  assert (Hcal : forall ic, (idx, ic) ∈ p1_calibrations final ->
                 ic = if Qltb ic_cor 512 then Some ic_cor else None).
  { intros ic. rewrite Hc, list_elem_of_omap. intros (k & _ & Hk).
    destruct (event_group !! k); simpl in Hk; [|done].
    injection Hk as -> <-. done. }
  eexists. split.
  { rewrite Hd, decide_True, Hev by done. reflexivity. }
  unfold expected_dataset, calibrated_cloud. rewrite Happlied.
  destruct (expected_ic_attrs _ _ _) as [[[a i] c] m]. simpl.
  split.
  - intros Hlt. apply Qltb_lt in Hlt. rewrite Hlt in Hcal |- *. done.
  - intros Hge. apply Qltb_ge in Hge. rewrite Hge in Hcal |- *. done.
Qed.

Lemma ic_correction_used_below_512_witness :
  let final :=
    fst (@phase_pointcloud sample_pointcloud_routines 1 sample_frib_params
           sample_detector_params (Some sample_trace_file) p1_init) in
  (exists ds, p1_datasets final !! 5 = Some ds
              /\ ds_data ds = [[101%Q; 102%Q; 103%Q]])
  /\ (exists ds, p1_datasets final !! 8 = Some ds
                 /\ ds_data ds = [[7%Q; 8%Q; 9%Q]]).
Proof.
  split.
  - destruct (@ic_correction_used_below_512 sample_pointcloud_routines 1
                sample_frib_params sample_detector_params sample_trace_file
                5 8 sample_event_group sample_frib_evt_group
                5 [[1; 2; 3]] [[40; 50; 100]] 1%Q (mkPeak 40 50 100)
                sample_trace_file_complete ltac:(lia) eq_refl eq_refl eq_refl
                eq_refl) as (ds & Hds & Hbelow & _).
    exists ds. split; [exact Hds|].
    destruct Hbelow as [Hdata _]; [reflexivity|].
    rewrite Hdata. vm_compute. reflexivity.
  - destruct (@ic_correction_used_below_512 sample_pointcloud_routines 1
                sample_frib_params sample_detector_params sample_trace_file
                5 8 sample_event_group sample_frib_evt_group
                8 [[7; 8; 9]] [[40; 50; 600]] 1%Q (mkPeak 40 50 600)
                sample_trace_file_complete ltac:(lia) eq_refl eq_refl eq_refl
                eq_refl) as (ds & Hds & _ & Habove).
    exists ds. split; [exact Hds|].
    destruct Habove as [Hdata _]; [by vm_compute|].
    rewrite Hdata. reflexivity.
Defined.

(** * Further properties of the drivers *)

(** ** Loops *)

Lemma length_range lo hi : lo <= hi -> Z.of_nat (length (range lo hi)) = hi - lo.
Proof. intros Hle. unfold range. rewrite length_map, length_seq. lia. Qed.

Lemma for_each_ext {St X} (f g : X -> M St unit) (l : list X) :
  (forall x s, x ∈ l -> f x s = g x s) ->
  forall s, for_each f l s = for_each g l s.
Proof.
  induction l as [|x l IH]; intros Hfg s; [done|].
  cbn [for_each]. unfold bind. rewrite Hfg by left.
  destruct (g x s) as [s1 [e|[]]]; [done|].
  apply IH. intros y s' Hy. apply Hfg. by right.
Qed.

Lemma for_each_cons_ok {St X} (body : X -> M St unit) x l s s' :
  for_each body (x :: l) s = (s', inr tt) ->
  exists s1, body x s = (s1, inr tt) /\ for_each body l s1 = (s', inr tt).
Proof.
  cbn [for_each]. unfold bind.
  destruct (body x s) as [s1 [e|[]]]; [done|]. by exists s1.
Qed.

Lemma omap_ext_in {A B} (f g : A -> option B) (l : list A) :
  (forall x, x ∈ l -> f x = g x) -> omap f l = omap g l.
Proof.
  induction l as [|x l IH]; intros Hfg; [done|].
  cbn [omap list_omap]. rewrite Hfg by left. rewrite IH; [done|].
  intros y Hy. apply Hfg. by right.
Qed.

(** ** The clustering phase reads nothing outside its event range *)

(** [phase_2] reads the point file only at the events of
    [min_event..max_event]: two point files with the same range that
    agree on the datasets of that range give the same run, whatever else
    they hold. *)
Theorem phase_2_reads_only_its_range `{ClusterRoutines}
  (cg1 cg2 : CloudGroup) (cluster_params : ClusterParameters) :
  cloud_min_event cg1 = cloud_min_event cg2 ->
  cloud_max_event cg1 = cloud_max_event cg2 ->
  (forall idx,
     cloud_min_event cg1 <= idx <= cloud_max_event cg1 ->
     cloud_datasets cg1 !! idx = cloud_datasets cg2 !! idx) ->
  phase_2 (Some cg1) cluster_params = phase_2 (Some cg2) cluster_params.
Proof.
  intros Hmin Hmax Hsame. unfold phase_2, phase_2_loop.
  rewrite <- Hmin, <- Hmax. apply for_each_ext.
  intros idx s Hidx. apply elem_of_range in Hidx.
  unfold phase_2_event. rewrite Hsame by lia. done.
Qed.

Lemma phase_2_reads_only_its_range_witness :
  @phase_2 sample_cluster_routines
    (Some (mkCloudGroup 0 2
             (<[9 := sample_dataset [sample_point 4; sample_point 5]]>
                (cloud_datasets sample_cloud_group))))
    sample_cluster_params
  = @phase_2 sample_cluster_routines (Some sample_cloud_group)
      sample_cluster_params.
Proof.
  apply (@phase_2_reads_only_its_range sample_cluster_routines);
    [reflexivity | reflexivity |].
  intros idx Hidx. simpl in Hidx. apply lookup_insert_ne. lia.
Defined.

(** ** Clusters written by [phase_2] and read back by the solve phase *)

Lemma read_cluster_no_event {St} group r (s : St) :
  group !! est_event r = None ->
  read_cluster group r s = (s, inl (KeyError (name_event_ (est_event r)))).
Proof. intros Hg. unfold read_cluster. by rewrite Hg. Qed.

Lemma read_cluster_no_member {St} group r ev (s : St) :
  group !! est_event r = Some ev ->
  members ev !! est_cluster_index r = None ->
  read_cluster group r s
  = (s, inl (KeyError (name_cluster_ (est_cluster_index r)))).
Proof.
  intros Hg Hm. unfold read_cluster. rewrite Hg. cbn [getitem].
  rewrite bind_ret. by rewrite Hm.
Qed.

(** Round trip through the cluster file. For an event that [phase_2]
    clustered, the solve phase reads at cluster index [i] a cluster with
    the label and the points of the [i]-th cleaned cluster (its event
    number is the one of the gated row); at a negative index or one past
    the cleaned clusters the read raises [KeyError] on the member name. *)
Theorem written_clusters_read_back `{ClusterRoutines}
  (cloud_group : CloudGroup) (cluster_params : ClusterParameters)
  (r : EstimateRow) (pc : PointCloud) (St : Type) (s : St) :
  let written :=
    p2_events (fst (phase_2 (Some cloud_group) cluster_params)) in
  let cleaned :=
    cleanup_clusters
      (join_clusters (clusterize pc cluster_params) cluster_params)
      cluster_params in
  cloud_min_event cloud_group <= est_event r <= cloud_max_event cloud_group ->
  loaded_cloud cloud_group (est_event r) = Some pc ->
  min_write_size cluster_params <= len (cloud pc) ->
  (forall (i : nat) c,
     cleaned !! i = Some c ->
     est_cluster_index r = Z.of_nat i ->
     read_cluster written r s
     = (s, inr (mkCluster (est_event r) (label c)
                  (mkPointCloud (est_event r) (cloud (point_cloud c))))))
  /\ (est_cluster_index r < 0 \/ len cleaned <= est_cluster_index r ->
      read_cluster written r s
      = (s, inl (KeyError (name_cluster_ (est_cluster_index r))))).
Proof.
  intros written cleaned Hrange Hload Hsize.
  destruct (phase_2_run cloud_group cluster_params) as (_ & He & _).
  fold written in He.
  assert (Hev : written !! est_event r = Some (event_node_of cleaned)).
  { rewrite He, decide_True by done. unfold expected_event.
    rewrite Hload. unfold big_enough.
    rewrite (proj2 (Z.ltb_ge _ _) Hsize). done. }
  split.
  - intros i c Hc Hidx. apply read_cluster_stored.
    unfold stored_cluster. rewrite Hev, event_node_members, Hidx.
    rewrite decide_True by lia. rewrite Nat2Z.id, Hc. done.
  - intros Hout. eapply read_cluster_no_member; [exact Hev|].
    rewrite event_node_members. destruct (decide _) as [Hpos|]; [|done].
    destruct Hout as [Hneg|Hbig]; [lia|].
    rewrite (proj2 (lookup_ge_None cleaned _)); [done|].
    unfold len in Hbig. lia.
Qed.

Lemma written_clusters_read_back_witness :
  read_cluster
    (p2_events
       (fst (@phase_2 sample_cluster_routines (Some sample_cloud_group)
               sample_cluster_params)))
    (sample_row 2 0 5 1 150) tt
  = (tt, inr (mkCluster 2 0
                (mkPointCloud 2
                   [sample_point 1; sample_point 2; sample_point 3]))).
Proof.
  destruct (@written_clusters_read_back sample_cluster_routines
              sample_cloud_group sample_cluster_params
              (sample_row 2 0 5 1 150)
              (mkPointCloud 2 [sample_point 1; sample_point 2; sample_point 3])
              unit tt) as [Hread _].
  - simpl. lia.
  - reflexivity.
  - unfold len. simpl. lia.
  - apply (Hread 0%nat (mkCluster 2 0
             (mkPointCloud 2
                [sample_point 1; sample_point 2; sample_point 3])));
      reflexivity.
Defined.

(** ** The point file between the first two phases *)

(** [phase_2] run on the point file that [phase_pointcloud] leaves loads,
    in event order, the calibrated cloud of every event of the range
    that has trace data, and nothing else; it does not raise. *)
Theorem phase_2_loads_the_calibrated_clouds
  `{PointcloudRoutines} `{ClusterRoutines}
  (run : Z) (frib_params : FribParameters)
  (detector_params : DetectorParameters) (tf : TraceFile)
  (min_event max_event : Z) (event_group frib_evt_group : gmap Z RawData)
  (cluster_params : ClusterParameters) :
  let point_file :=
    cloud_group_written min_event max_event
      (fst (phase_pointcloud run frib_params detector_params (Some tf)
              p1_init)) in
  let out := phase_2 (Some point_file) cluster_params in
  complete_trace_file tf min_event max_event event_group frib_evt_group ->
  snd out = inr tt
  /\ p2_loaded (fst out)
     = omap (fun idx =>
               (fun event_data =>
                  load_cloud_from_hdf5_data
                    (calibrated_cloud frib_params detector_params
                       frib_evt_group (corrector_of detector_params)
                       event_data idx) idx)
               <$> event_group !! idx)
            (range min_event (max_event + 1)).
Proof.
  intros point_file out Hcomplete.
  destruct (phase_pointcloud_run run frib_params detector_params tf
              min_event max_event event_group frib_evt_group Hcomplete)
    as (_ & Hd & _).
  destruct (phase_2_run point_file cluster_params) as (Hok & _ & Hl & _).
  fold out in Hok, Hl. split; [done|]. rewrite Hl. simpl.
  apply omap_ext_in. intros idx Hidx. apply elem_of_range in Hidx.
  unfold loaded_cloud. simpl. rewrite Hd, decide_True by lia.
  destruct (event_group !! idx) as [event_data|]; [|done]. simpl.
  unfold expected_dataset.
  destruct (expected_ic_attrs _ _ _) as [[[a i] c] m]. done.
Qed.

Lemma phase_2_loads_the_calibrated_clouds_witness :
  p2_loaded
    (fst (@phase_2 sample_cluster_routines
            (Some (cloud_group_written 5 8
                     (fst (@phase_pointcloud sample_pointcloud_routines 1
                             sample_frib_params sample_detector_params
                             (Some sample_trace_file) p1_init))))
            sample_cluster_params))
  = [ mkPointCloud 5 [[101%Q; 102%Q; 103%Q]];
      mkPointCloud 7 [[4%Q; 5%Q; 6%Q]];
      mkPointCloud 8 [[7%Q; 8%Q; 9%Q]] ].
Proof.
  destruct (@phase_2_loads_the_calibrated_clouds sample_pointcloud_routines
              sample_cluster_routines 1 sample_frib_params
              sample_detector_params sample_trace_file 5 8
              sample_event_group sample_frib_evt_group sample_cluster_params
              sample_trace_file_complete) as [_ Hloaded].
  rewrite Hloaded. vm_compute. reflexivity.
Defined.

(** ** What the point-cloud phase logs *)

(** [phase_pointcloud] logs at most one record, and it is one of: the
    warning that the run does not exist, the error that the [get], the
    [frib] or the [frib/evt] member is no group, or the end of the phase.
    The warning about a missing scaler group (lines 115-120) is never
    logged: a trace file without the member [frib/scaler] makes line 114
    raise [KeyError] before any event is processed, leaving the point
    file created and empty. *)
Theorem scaler_warning_is_never_logged `{PointcloudRoutines}
  (run : Z) (frib_params : FribParameters)
  (detector_params : DetectorParameters) (trace_file : option TraceFile) :
  let out :=
    phase_pointcloud run frib_params detector_params trace_file p1_init in
  (p1_log (fst out) = []
   \/ p1_log (fst out) = [(WARN, RunDoesNotExist run)]
   \/ p1_log (fst out) = [(ERROR, GetGroupMissing run)]
   \/ p1_log (fst out) = [(ERROR, FribGroupMissing run)]
   \/ p1_log (fst out) = [(ERROR, FribEvtGroupMissing run)]
   \/ p1_log (fst out) = [(INFO, Phase1Complete)])
  /\ (forall tf range_ event_group frib_group frib_evt_group,
        trace_file = Some tf ->
        get_event_range tf = inr range_ ->
        tf_get tf = Some (IsGroup event_group) ->
        tf_frib tf = Some (IsGroup frib_group) ->
        frib_evt frib_group = Some (IsGroup frib_evt_group) ->
        frib_scaler frib_group = None ->
        out = (mkP1State 0 [] [] true ∅ [] false,
               inl (KeyError name_scaler))).
Proof.
  intros out. split.
  - unfold out, phase_pointcloud.
    destruct trace_file as [tf|]; [|by auto].
    rewrite bind_modify.
    destruct (get_event_range tf) as [e|[min_event max_event]]; [by left|].
    destruct (tf_get tf) as [[event_group|]|]; [|by auto|by left].
    destruct (tf_frib tf) as [[frib_group|]|]; [|by auto 6|by left].
    destruct (frib_evt frib_group) as [[frib_evt_group|]|];
      [|by auto 6|by left].
    destruct (frib_scaler frib_group) as [sc|]; [|by left].
    match goal with
    |- context [for_each (phase_pointcloud_event _ _ _ ?fv ?cor _ _) ?l] =>
      destruct (phase_pointcloud_events_run run frib_params detector_params
                  cor event_group frib_evt_group fv l (p1_open_file p1_init))
        as (s' & Hrun & _ & _ & Hlog)
    end.
    { apply NoDup_range. }
    { intros k _. apply lookup_empty. }
    erewrite bind_run by exact Hrun. simpl. rewrite Hlog. simpl. auto 10.
  - intros tf [min_event max_event] event_group frib_group frib_evt_group
      -> Hmeta Hget Hfrib Hevt Hsc.
    unfold out, phase_pointcloud. rewrite bind_modify.
    rewrite Hmeta, Hget, Hfrib, Hevt, Hsc. done.
Qed.

Lemma scaler_warning_is_never_logged_witness :
  @phase_pointcloud sample_pointcloud_routines 1 sample_frib_params
    sample_detector_params
    (Some (mkTraceFile (Some [5; 4; 8]) (Some (IsGroup sample_event_group))
             (Some (IsGroup
                      (mkFribGroup (Some (IsGroup sample_frib_evt_group))
                         None)))))
    p1_init
  = (mkP1State 0 [] [] true ∅ [] false, inl (KeyError name_scaler)).
Proof.
  destruct (@scaler_warning_is_never_logged sample_pointcloud_routines 1
              sample_frib_params sample_detector_params
              (Some (mkTraceFile (Some [5; 4; 8])
                       (Some (IsGroup sample_event_group))
                       (Some (IsGroup
                                (mkFribGroup
                                   (Some (IsGroup sample_frib_evt_group))
                                   None)))))) as [_ Hraise].
  apply (Hraise _ _ _ _ _ eq_refl eq_refl eq_refl eq_refl eq_refl eq_refl).
Defined.

(** ** Calibration *)

(** With IC time correction switched off, no event is calibrated with an
    IC correction, whatever the FRIB data holds: every cloud written is
    the one calibrated without it. *)
Theorem no_ic_correction_when_switched_off `{PointcloudRoutines}
  (run : Z) (frib_params : FribParameters)
  (detector_params : DetectorParameters) (tf : TraceFile)
  (min_event max_event : Z) (event_group frib_evt_group : gmap Z RawData) :
  let final :=
    fst (phase_pointcloud run frib_params detector_params (Some tf) p1_init) in
  complete_trace_file tf min_event max_event event_group frib_evt_group ->
  correct_ic_time frib_params = false ->
  (forall idx ic, (idx, ic) ∈ p1_calibrations final -> ic = None)
  /\ (forall idx ds event_data,
        p1_datasets final !! idx = Some ds ->
        event_group !! idx = Some event_data ->
        ds_data ds
        = calibrate_z_position
            (micromegas_time_bucket detector_params)
            (window_time_bucket detector_params)
            (detector_length detector_params)
            (corrector_of detector_params) None
            (cloud_from_get_event event_data idx)).
Proof.
  intros final Hcomplete Hoff.
  destruct (phase_pointcloud_run run frib_params detector_params tf
              min_event max_event event_group frib_evt_group Hcomplete)
    as (_ & Hd & Hc & _).
  fold final in Hd, Hc.
  assert (Hnone : forall idx,
    applied_ic_correction frib_params detector_params frib_evt_group idx
    = None).
  { intros idx. unfold applied_ic_correction, computed_ic_correction.
    rewrite Hoff. by destruct (frib_evt_group !! idx). }
  split.
  - intros idx ic. rewrite Hc, list_elem_of_omap. intros (k & _ & Hk).
    destruct (event_group !! k); simpl in Hk; [|done].
    injection Hk as -> <-. apply Hnone.
  - intros idx ds event_data Hds Hev. rewrite Hd in Hds.
    destruct (decide _); [|done]. rewrite Hev in Hds. simpl in Hds.
    injection Hds as <-. unfold expected_dataset, calibrated_cloud.
    rewrite Hnone. by destruct (expected_ic_attrs _ _ _) as [[[? ?] ?] ?].
Qed.

Lemma no_ic_correction_when_switched_off_witness :
  exists ds,
    p1_datasets
      (fst (@phase_pointcloud sample_pointcloud_routines 1
              (mkFribParameters false 1) sample_detector_params
              (Some sample_trace_file) p1_init)) !! 5 = Some ds
    /\ ds_data ds = [[1%Q; 2%Q; 3%Q]].
Proof.
  destruct (@no_ic_correction_when_switched_off sample_pointcloud_routines 1
              (mkFribParameters false 1) sample_detector_params
              sample_trace_file 5 8 sample_event_group sample_frib_evt_group
              sample_trace_file_complete eq_refl) as [_ Hdata].
  eexists. split; [reflexivity|].
  apply (Hdata 5 _ [[1; 2; 3]] eq_refl eq_refl).
Defined.

Lemma omap_keys {A B} (m : gmap Z A) (f : Z -> B) (l : list Z) :
  map fst (omap (fun k => (fun _ => (k, f k)) <$> m !! k) l)
  = List.filter (fun k => bool_decide (is_Some (m !! k))) l.
Proof.
  induction l as [|k l IH]; [done|].
  cbn [omap list_omap List.filter].
  destruct (m !! k) as [d|] eqn:Hk; simpl; by rewrite IH.
Qed.

(** Every cloud written was calibrated exactly once: the calibrations
    recorded by a run are one per dataset of the point file, and no event
    is calibrated twice. *)
Theorem each_dataset_is_calibrated_once `{PointcloudRoutines}
  (run : Z) (frib_params : FribParameters)
  (detector_params : DetectorParameters) (tf : TraceFile)
  (min_event max_event : Z) (event_group frib_evt_group : gmap Z RawData) :
  let final :=
    fst (phase_pointcloud run frib_params detector_params (Some tf) p1_init) in
  complete_trace_file tf min_event max_event event_group frib_evt_group ->
  NoDup (map fst (p1_calibrations final))
  /\ (forall idx,
        idx ∈ map fst (p1_calibrations final)
        <-> is_Some (p1_datasets final !! idx))
  /\ length (p1_calibrations final) = size (p1_datasets final).
Proof.
  intros final Hcomplete.
  destruct (phase_pointcloud_run run frib_params detector_params tf
              min_event max_event event_group frib_evt_group Hcomplete)
    as (_ & Hd & Hc & _).
  fold final in Hd, Hc.
  set (events := List.filter (fun k => bool_decide (is_Some (event_group !! k)))
                   (range min_event (max_event + 1))).
  assert (Hkeys : map fst (p1_calibrations final) = events).
  { rewrite Hc. apply omap_keys. }
  assert (Hnd : NoDup events).
  { unfold events. apply NoDup_ListNoDup, List.NoDup_filter, NoDup_ListNoDup.
    apply NoDup_range. }
  assert (Hin : forall idx,
            idx ∈ events <-> is_Some (p1_datasets final !! idx)).
  { intros idx. unfold events.
    rewrite list_elem_of_In, filter_In, <- list_elem_of_In, elem_of_range.
    rewrite bool_decide_eq_true, Hd.
    destruct (decide (min_event <= idx <= max_event)) as [Hr|Hr].
    - rewrite fmap_is_Some. split; [tauto|]. intros ?. split; [lia|done].
    - split; [lia|]. by intros [? ?]. }
  rewrite Hkeys. split; [done|]. split; [done|].
  rewrite <- (length_map fst), Hkeys.
  rewrite <- (size_dom (D := gset Z)).
  rewrite <- (size_list_to_set (C := gset Z) events) by done.
  f_equal. apply set_eq. intros idx.
  rewrite elem_of_list_to_set, elem_of_dom. apply Hin.
Qed.

Lemma each_dataset_is_calibrated_once_witness :
  length (p1_calibrations
            (fst (@phase_pointcloud sample_pointcloud_routines 1
                    sample_frib_params sample_detector_params
                    (Some sample_trace_file) p1_init)))
  = size (p1_datasets
            (fst (@phase_pointcloud sample_pointcloud_routines 1
                    sample_frib_params sample_detector_params
                    (Some sample_trace_file) p1_init))).
Proof.
  apply (@each_dataset_is_calibrated_once sample_pointcloud_routines 1
           sample_frib_params sample_detector_params sample_trace_file 5 8
           sample_event_group sample_frib_evt_group
           sample_trace_file_complete).
Defined.

(** ** Progress messages *)

Lemma run_counter_sum flush_val n : forall c,
  0 <= flush_val -> 0 <= c <= flush_val + 1 ->
  fst (run_counter flush_val n c)
  + Z.of_nat (snd (run_counter flush_val n c)) * (flush_val + 1)
  = c + Z.of_nat n
  /\ fst (run_counter flush_val n c) <= flush_val + 1
  /\ (1 <= c \/ (0 < n)%nat -> 1 <= fst (run_counter flush_val n c)).
Proof.
  induction n as [|n IH]; intros c Hf Hc; cbn [run_counter].
  - simpl. split; [lia|]. split; [lia|]. intros [?|?]; lia.
  - destruct (Z.ltb_spec flush_val c) as [Hgt|Hle].
    + destruct (IH (0 + 1) Hf ltac:(lia)) as (Hsum & Hup & Hlow).
      destruct (run_counter flush_val n (0 + 1)) as [c' e]. simpl in *.
      split; [lia|]. split; [lia|]. intros _. apply Hlow. lia.
    + destruct (IH (c + 1) Hf ltac:(lia)) as (Hsum & Hup & Hlow).
      split; [lia|]. split; [lia|]. intros _. apply Hlow. lia.
Qed.

(** From a count of zero, [n] turns emit [(n - 1) / (flush_val + 1)]
    times. *)
Lemma run_counter_emissions flush_val n :
  0 <= flush_val -> (0 < n)%nat ->
  Z.of_nat (snd (run_counter flush_val n 0))
  = (Z.of_nat n - 1) / (flush_val + 1).
Proof.
  intros Hf Hn.
  destruct (run_counter_sum flush_val n 0 Hf ltac:(lia)) as (Hsum & Hup & Hlow).
  specialize (Hlow (or_intror Hn)).
  apply (Z.div_unique_pos _ _ _ (fst (run_counter flush_val n 0) - 1)); lia.
Qed.

Lemma for_each_counter {St X A} (count : St -> Z) (queue : St -> list A)
  (msg : A) (flush_val : Z) (body : X -> M St unit) :
  (forall x s s1,
     body x s = (s1, inr tt) ->
     count s1 = (if flush_val <? count s then 0 + 1 else count s + 1)
     /\ queue s1 = (if flush_val <? count s then queue s ++ [msg]
                    else queue s)) ->
  forall l s s',
    for_each body l s = (s', inr tt) ->
    count s' = fst (run_counter flush_val (length l) (count s))
    /\ queue s'
       = queue s
         ++ replicate (snd (run_counter flush_val (length l) (count s))) msg.
Proof.
  intros Hbody. induction l as [|x l IH]; intros s s' Hrun.
  - injection Hrun as <-. simpl. by rewrite app_nil_r.
  - apply for_each_cons_ok in Hrun as (s1 & Hx & Hrest).
    destruct (Hbody x s s1 Hx) as [Hc Hq].
    destruct (IH s1 s' Hrest) as [Hc' Hq'].
    rewrite Hc', Hq', Hc, Hq. cbn [length run_counter].
    destruct (flush_val <? count s).
    + destruct (run_counter flush_val (length l) (0 + 1)) as [c' e].
      simpl. by rewrite <- app_assoc.
    + done.
Qed.

Lemma phase_pointcloud_event_progress `{PointcloudRoutines}
  run frib_params detector_params flush_val corrector event_group
  frib_evt_group idx s :
  let s' :=
    fst (phase_pointcloud_event run frib_params detector_params flush_val
           corrector event_group frib_evt_group idx s) in
  p1_count s' = p1_count (p1_tick run flush_val s)
  /\ p1_queue s' = p1_queue (p1_tick run flush_val s).
Proof.
  unfold phase_pointcloud_event. rewrite bind_modify.
  generalize (p1_tick run flush_val s). intros s1.
  destruct (event_group !! idx) as [event_data|]; [|done].
  unfold create_cloud_dataset, calibrate, set_ic_attrs, write_cloud.
  unfold bind, gets, modify, ret, raise. cbn [event_number cloud fst snd].
  destruct (p1_datasets s1 !! idx); [done|].
  destruct (frib_evt_group !! idx) as [frib_data|]; [|done].
  destruct (correct_ic_time frib_params).
  - destruct (get_good_ic_peak _ _) as [[mult peak]|]; [|done].
    by destruct (Qltb _ 512).
  - destruct (get_triggering_ic_peak _ _) as [p|]; [|done].
    by destruct (Qle_bool _ _).
Qed.

(** The status messages of the point-cloud phase. Over a non-empty range
    of [d + 1] events the phase posts [d / (d ÷ 100 + 1)] messages, each
    [StatusMessage(run, Phase.CLOUD, 1)]: always fewer than one hundred,
    so the increments of a run never add up to 100. *)
Theorem point_cloud_progress_stays_below_100 `{PointcloudRoutines}
  (run : Z) (frib_params : FribParameters)
  (detector_params : DetectorParameters) (tf : TraceFile)
  (min_event max_event : Z) (event_group frib_evt_group : gmap Z RawData) :
  let final :=
    fst (phase_pointcloud run frib_params detector_params (Some tf) p1_init) in
  let d := max_event - min_event in
  complete_trace_file tf min_event max_event event_group frib_evt_group ->
  min_event <= max_event ->
  p1_queue final
  = replicate (Z.to_nat (d / (Z.quot d 100 + 1)))
      (mkStatusMessage run CLOUD 1)
  /\ (length (p1_queue final) < 100)%nat.
Proof.
  intros final d (Hmeta & Hget & fg & Hfrib & Hevt & [sc Hsc]) Hle.
  assert (Hq : p1_queue final
               = replicate (Z.to_nat (d / (Z.quot d 100 + 1)))
                   (mkStatusMessage run CLOUD 1)).
  { unfold final, phase_pointcloud. rewrite bind_modify.
    rewrite Hmeta, Hget, Hfrib, Hevt, Hsc. fold d.
    match goal with
    |- context [for_each (phase_pointcloud_event _ _ _ ?fv ?cor _ _) ?l] =>
      destruct (phase_pointcloud_events_run run frib_params detector_params
                  cor event_group frib_evt_group fv l (p1_open_file p1_init))
        as (s' & Hrun & _);
      [apply NoDup_range | intros k _; apply lookup_empty |];
      pose proof (for_each_counter p1_count p1_queue
                    (mkStatusMessage run CLOUD 1) fv
                    (phase_pointcloud_event run frib_params detector_params
                       fv cor event_group frib_evt_group)) as Hcount
    end.
    erewrite bind_run by exact Hrun. simpl.
    destruct (Hcount) with (s := p1_open_file p1_init) (s' := s')
                           (l := range min_event (max_event + 1))
      as [_ Hqueue].
    - intros x s s1 Hx.
      pose proof (phase_pointcloud_event_progress run frib_params
                    detector_params (int_percent d)
                    (if do_garfield_correction detector_params
                     then Some create_electron_corrector else None)
                    event_group frib_evt_group x s) as Hp.
      cbn zeta in Hp. rewrite Hx in Hp. simpl in Hp.
      unfold p1_tick in Hp. destruct (int_percent d <? p1_count s); exact Hp.
    - exact Hrun.
    - rewrite Hqueue. simpl. f_equal.
      assert (Hlen : Z.of_nat (length (range min_event (max_event + 1)))
                     = d + 1) by (rewrite length_range; unfold d; lia).
      assert (Hf : 0 <= int_percent d).
      { unfold int_percent. apply Z.quot_pos; unfold d; lia. }
      pose proof (run_counter_emissions (int_percent d)
                    (length (range min_event (max_event + 1))) Hf
                    ltac:(lia)) as He.
      rewrite Hlen in He. replace (d + 1 - 1) with d in He by lia.
      unfold int_percent in *. rewrite <- He. by rewrite Nat2Z.id. }
  split; [exact Hq|]. rewrite Hq, length_replicate.
  assert (Hd : 0 <= d) by (unfold d; lia).
  assert (Hquot : Z.quot d 100 = d / 100)
    by (apply Z.quot_div_nonneg; lia).
  rewrite Hquot.
  assert (Hpos : 0 <= d / 100) by (apply Z.div_pos; lia).
  assert (d / (d / 100 + 1) < 100).
  { apply Z.div_lt_upper_bound; [lia|].
    pose proof (Z.mul_succ_div_gt d 100 ltac:(lia)). lia. }
  assert (0 <= d / (d / 100 + 1)) by (apply Z.div_pos; lia).
  lia.
Qed.

Lemma point_cloud_progress_stays_below_100_witness :
  p1_queue
    (fst (@phase_pointcloud sample_pointcloud_routines 1 sample_frib_params
            sample_detector_params (Some sample_trace_file) p1_init))
  = [mkStatusMessage 1 CLOUD 1; mkStatusMessage 1 CLOUD 1;
     mkStatusMessage 1 CLOUD 1].
Proof.
  apply (@point_cloud_progress_stays_below_100 sample_pointcloud_routines 1
           sample_frib_params sample_detector_params sample_trace_file 5 8
           sample_event_group sample_frib_evt_group
           sample_trace_file_complete).
  lia.
Defined.

(** ** A cluster that cannot be read stops the solve phase *)

Section SolveStop.
Context `{SolveRoutines}.
Variable run : Z.
Variables flush_val progress : Z.
Variable group : gmap Z EventNode.
Variable direction : option Direction.
Variable ion : Nucleus.
Variable interpolator : Interpolator.
Variable det_params : option DetectorParameters.

Local Abbreviation row_body :=
  (solve_row run flush_val progress (ret group) direction ion interpolator
     det_params).

Lemma solve_row_fail r e s :
  (forall s : SolveState, read_cluster group r s = (s, inl e)) ->
  row_body r s = (sv_tick run flush_val progress s, inl e).
Proof.
  intros Hread. unfold solve_row. rewrite bind_modify, bind_ret.
  unfold bind. by rewrite Hread.
Qed.

(** The loop stops at the first row whose cluster cannot be read, with
    the exception of that read; the calls made before it stay recorded,
    and neither the log nor the result file is touched. *)
Lemma solve_rows_stop pre r post e : forall s,
  Forall (fun r => is_Some (stored_cluster group r)) pre ->
  (forall s : SolveState, read_cluster group r s = (s, inl e)) ->
  let out := for_each row_body (pre ++ r :: post) s in
  snd out = inl e
  /\ sv_calls (fst out) = sv_calls s ++ readable_prefix group direction pre
  /\ sv_result_file (fst out) = sv_result_file s
  /\ sv_log (fst out) = sv_log s
  /\ sv_queue (fst out)
     = sv_queue (fst (for_each row_body (pre ++ [r]) s)).
Proof.
  induction pre as [|r0 pre IH]; intros s Hpre Hread; cbn zeta.
  - cbn [app for_each readable_prefix]. unfold bind.
    rewrite (solve_row_fail r e s Hread). simpl.
    destruct (sv_tick_keeps run flush_val progress s) as (Hc & _ & Hf & Hl).
    rewrite Hc, Hf, Hl, app_nil_r. done.
  - apply Forall_cons in Hpre as [[c Hc] Hpre].
    cbn [app for_each readable_prefix].
    pose proof (solve_row_run run flush_val progress group direction ion
                  interpolator det_params r0 s) as Hrow.
    unfold call_of_row in *. rewrite Hc in *. simpl in Hrow. simpl.
    rewrite !(bind_run _ _ _ _ _ Hrow).
    match goal with |- context [for_each _ (pre ++ r :: post) ?s1] =>
      destruct (IH s1 Hpre Hread) as (He & Hcalls & Hf & Hl & Hq)
    end.
    rewrite He, Hcalls, Hf, Hl, Hq. simpl.
    destruct (sv_tick_keeps run flush_val progress s) as (Hc' & _ & Hf' & Hl').
    rewrite Hc', Hf', Hl', <- app_assoc. done.
Qed.
End SolveStop.

Lemma read_cluster_unreadable group r :
  stored_cluster group r = None ->
  exists e, forall s : SolveState, read_cluster group r s = (s, inl e).
Proof.
  unfold stored_cluster. intros Hc.
  destruct (group !! est_event r) as [ev|] eqn:Hg.
  - destruct (members ev !! est_cluster_index r) as [node|] eqn:Hm.
    + destruct node as [[lbl|] [data|]]; simplify_eq/=;
        eexists; intros s; unfold read_cluster; rewrite Hg;
        cbn [getitem]; rewrite bind_ret, Hm; cbn [getitem];
        rewrite bind_ret; cbn [getitem label_attr cloud_data];
        rewrite ?bind_ret; done.
    + eexists. intros s. by apply (read_cluster_no_member group r ev).
  - eexists. intros s. by apply read_cluster_no_event.
Qed.

(** A table with a row whose cluster cannot be read splits at the first
    such row. *)
Lemma first_unreadable_row group rows :
  ~ Forall (fun r => is_Some (stored_cluster group r)) rows ->
  exists pre r post,
    rows = pre ++ r :: post
    /\ Forall (fun r => is_Some (stored_cluster group r)) pre
    /\ stored_cluster group r = None.
Proof.
  induction rows as [|r rows IH]; intros Hnot.
  - destruct Hnot. constructor.
  - destruct (stored_cluster group r) as [c|] eqn:Hc.
    + destruct IH as (pre & r' & post & -> & Hpre & Hr').
      { intros Hall. apply Hnot. constructor; [by rewrite Hc | done]. }
      exists (r :: pre), r', post. split; [done|].
      split; [|done]. constructor; [by rewrite Hc | done].
    + exists [], r, rows. split; [done|]. split; [constructor | done].
Qed.

Lemma readable_prefix_length group dir pre r post :
  stored_cluster group r = None ->
  (length (readable_prefix group dir (pre ++ r :: post))
   < length (pre ++ r :: post))%nat.
Proof.
  intros Hr. induction pre as [|r0 pre IH]; simpl.
  - unfold call_of_row. rewrite Hr. simpl. lia.
  - destruct (call_of_row group dir r0); simpl; lia.
Qed.

(** On a table with a row whose cluster cannot be read, [phase_solve]
    raises the exception of that read, having logged nothing and written
    no result file. *)
Lemma phase_solve_gated_stop `{SolveRoutines} run det_params pid gas
  cluster_group pre r post e :
  let out :=
    phase_solve_gated run det_params pid gas cluster_group
      (pre ++ r :: post) sv_init in
  Forall (fun r => is_Some (stored_cluster cluster_group r)) pre ->
  (forall s : SolveState, read_cluster cluster_group r s = (s, inl e)) ->
  snd out = inl e
  /\ sv_result_file (fst out) = None
  /\ sv_log (fst out) = [].
Proof.
  intros out Hpre Hread. unfold out, phase_solve_gated.
  assert (Hlen : (len (pre ++ r :: post) =? 0) = false).
  { apply Z.eqb_neq. unfold len. rewrite length_app. simpl. lia. }
  rewrite Hlen.
  match goal with
  |- context [for_each (solve_row _ ?fv ?pr _ ?dir ?ion ?ip ?dp)] =>
    destruct (solve_rows_stop run fv pr cluster_group dir ion ip dp
                pre r post e sv_init Hpre Hread)
      as (He & _ & Hf & Hl & _)
  end.
  match goal with |- context [(?loop ;; ?after) sv_init] =>
    assert (Hout : (loop ;; after) sv_init = (fst (loop sv_init), inl e))
  end.
  { unfold bind at 1.
    match goal with |- context [for_each ?b ?l sv_init] =>
      destruct (for_each b l sv_init) as [s' [e'|[]]]
    end; simpl in *; [congruence | done]. }
  rewrite Hout. simpl. by rewrite Hf, Hl.
Qed.

(** [phase_solve] writes all results or none, whatever the order in
    which the query returned the gated rows. On a gated table with at
    least one row: if the cluster of every row can be read, the phase
    returns, every row has been handed to the solver and the result file
    holds [results]; if the cluster of some row cannot be read, the
    phase raises, fewer calls than rows have been made, nothing is
    logged and no result file is written. The exception is that of the
    first such row of the table: when it names an event without a group
    in the cluster file, [KeyError] on the name of that event group,
    after the calls for the rows before it. *)
Theorem solve_phase_writes_all_or_nothing `{SolveRoutines}
  (run : Z) (det_params : DetectorParameters) (pid : ParticleID)
  (gas : string) (cluster_group : gmap Z EventNode)
  (gated : list EstimateRow) :
  let readable r := is_Some (stored_cluster cluster_group r) in
  let out :=
    phase_solve_gated run det_params pid gas cluster_group gated sv_init in
  gated <> [] ->
  (Forall readable gated ->
   snd out = inr tt
   /\ sv_result_file (fst out) = Some (sv_results (fst out))
   /\ map call_key (sv_calls (fst out)) = map (row_key (Some NONE)) gated)
  /\ (~ Forall readable gated ->
      (exists e, snd out = inl e)
      /\ sv_result_file (fst out) = None
      /\ sv_log (fst out) = []
      /\ (length (sv_calls (fst out)) < length gated)%nat)
  /\ (forall pre r post,
        gated = pre ++ r :: post ->
        Forall readable pre ->
        cluster_group !! est_event r = None ->
        snd out = inl (KeyError (name_event_ (est_event r)))
        /\ map call_key (sv_calls (fst out))
           = map (row_key (Some NONE)) pre).
Proof.
  intros readable out Hne.
  destruct (phase_solve_gated_run run det_params pid gas cluster_group gated)
    as [Hcalls Hok].
  fold out in Hcalls, Hok. split; [|split].
  - intros Hall. destruct (Hok Hne Hall) as [Hret Hfile].
    split; [done|]. split; [done|].
    rewrite Hcalls. by apply readable_prefix_full.
  - intros Hnot.
    destruct (first_unreadable_row cluster_group gated Hnot)
      as (pre & r & post & Hsplit & Hpre & Hr).
    destruct (read_cluster_unreadable cluster_group r Hr) as [e Hread].
    destruct (phase_solve_gated_stop run det_params pid gas cluster_group
                pre r post e Hpre Hread) as (He & Hf & Hl).
    rewrite Hcalls. unfold out. rewrite Hsplit.
    split; [by exists e|]. split; [done|]. split; [done|].
    by apply readable_prefix_length.
  - intros pre r post Hsplit Hpre Hmissing.
    destruct (phase_solve_gated_stop run det_params pid gas cluster_group
                pre r post (KeyError (name_event_ (est_event r))) Hpre)
      as (He & _).
    { intros s. by apply read_cluster_no_event. }
    rewrite Hcalls. unfold out. rewrite Hsplit. split; [done|].
    assert (Hcut : readable_prefix cluster_group (Some NONE)
                     (pre ++ r :: post)
                   = readable_prefix cluster_group (Some NONE) pre).
    { clear -Hpre Hmissing. induction Hpre as [|r0 pre [c Hc] _ IH]; simpl.
      - unfold call_of_row, stored_cluster. by rewrite Hmissing.
      - unfold call_of_row. rewrite Hc. simpl. by rewrite IH. }
    rewrite Hcut. by apply readable_prefix_full.
Qed.

Lemma solve_phase_writes_all_or_nothing_witness :
  let run_on gated :=
    @phase_solve_gated sample_solve_routines 1 sample_detector_params
      sample_pid "gas.json" sample_cluster_file gated sv_init in
  let readable := sample_row 3 1 5 (3 # 2) 150 in
  let unreadable := sample_row 9 0 5 1 150 in
  (snd (run_on [readable; unreadable]) = inl (KeyError (name_event_ 9))
   /\ length (sv_calls (fst (run_on [readable; unreadable]))) = 1%nat)
  /\ (snd (run_on [unreadable; readable]) = inl (KeyError (name_event_ 9))
      /\ sv_calls (fst (run_on [unreadable; readable])) = [])
  /\ sv_result_file (fst (run_on [unreadable; readable])) = None.
Proof.
  intros run_on readable unreadable. subst run_on. cbv beta.
  destruct (@solve_phase_writes_all_or_nothing sample_solve_routines 1
              sample_detector_params sample_pid "gas.json"
              sample_cluster_file [readable; unreadable]
              ltac:(discriminate)) as (_ & _ & Hlate).
  destruct (@solve_phase_writes_all_or_nothing sample_solve_routines 1
              sample_detector_params sample_pid "gas.json"
              sample_cluster_file [unreadable; readable]
              ltac:(discriminate)) as (_ & Hnone & Hearly).
  split; [|split].
  - destruct (Hlate [readable] unreadable [] eq_refl) as [He Hcalls].
    + constructor; [by eexists | constructor].
    + reflexivity.
    + split; [exact He|].
      rewrite <- (length_map call_key), Hcalls. reflexivity.
  - destruct (Hearly [] unreadable [readable] eq_refl) as [He Hcalls].
    + constructor.
    + reflexivity.
    + split; [exact He|].
      apply (map_eq_nil call_key). exact Hcalls.
  - apply Hnone. intros Hall. inversion Hall as [|? ? [c Hc] _].
    discriminate Hc.
Defined.

(** ** The two solve drivers *)

Lemma readable_prefix_direction group d d' rows :
  readable_prefix group d rows
  = map (call_with_direction d) (readable_prefix group d' rows).
Proof.
  induction rows as [|r rows IH]; [done|]. cbn [readable_prefix].
  unfold call_of_row. destruct (stored_cluster group r) as [c|]; [|done].
  simpl. by rewrite IH.
Qed.

Lemma readable_prefix_omap group dir rows :
  Forall (fun r => is_Some (stored_cluster group r)) rows ->
  readable_prefix group dir rows = omap (call_of_row group dir) rows.
Proof.
  induction 1 as [|r rows [c Hc] _ IH]; [done|].
  cbn [readable_prefix omap list_omap]. unfold call_of_row.
  rewrite Hc. simpl. by rewrite IH.
Qed.

(** When the queries of [phase_solve] and of the earlier
    [phase_4_interp] return the same gated rows, each in an order of its
    own, and the cluster of every row can be read, the two drivers hand
    the solver the same clusters under the same indices with the same
    guesses, up to the order of the calls; only the direction of the
    guess differs ([Direction.NONE] against none). *)
Theorem both_solve_drivers_make_the_same_calls `{SolveRoutines}
  (run : Z) (solver_params : SolverParameters)
  (det_params : DetectorParameters) (pid : ParticleID) (gas : string)
  (cluster_group : gmap Z EventNode) (gated gated' : list EstimateRow) :
  gated ≡ₚ gated' ->
  Forall (fun r => is_Some (stored_cluster cluster_group r)) gated ->
  sv_calls
    (fst (phase_solve_gated run det_params pid gas cluster_group gated
            sv_init))
  ≡ₚ map (call_with_direction (Some NONE))
       (sv_calls
          (fst (phase_4_interp_gated run solver_params pid
                  (Some (IsGroup cluster_group)) gated' sv_init))).
Proof.
  intros Hperm Hall.
  destruct (phase_solve_gated_run run det_params pid gas cluster_group gated)
    as [-> _].
  destruct (phase_4_interp_gated_run run solver_params pid cluster_group
              gated') as [-> _].
  rewrite (readable_prefix_direction cluster_group (Some NONE) None gated).
  apply fmap_Permutation.
  rewrite !readable_prefix_omap; [by rewrite Hperm| |done].
  by rewrite <- Hperm.
Qed.

Lemma both_solve_drivers_make_the_same_calls_witness :
  let first := sample_row 11 0 5 1 150 in
  let second := sample_row 3 1 5 (3 # 2) 150 in
  sv_calls
    (fst (@phase_solve_gated sample_solve_routines 1 sample_detector_params
            sample_pid "gas.json" sample_five_cluster_file [first; second]
            sv_init))
  ≡ₚ map (call_with_direction (Some NONE))
       (sv_calls
          (fst (@phase_4_interp_gated sample_solve_routines 1
                  sample_solver_params sample_pid
                  (Some (IsGroup sample_five_cluster_file)) [second; first]
                  sv_init)))
  /\ length
       (sv_calls
          (fst (@phase_4_interp_gated sample_solve_routines 1
                  sample_solver_params sample_pid
                  (Some (IsGroup sample_five_cluster_file)) [second; first]
                  sv_init))) = 2%nat.
Proof.
  intros first second. split; [|reflexivity].
  apply (@both_solve_drivers_make_the_same_calls sample_solve_routines 1
           sample_solver_params sample_detector_params sample_pid "gas.json"
           sample_five_cluster_file [first; second] [second; first]).
  - apply perm_swap.
  - repeat constructor; by eexists.
Defined.

(** A cluster file without the member [cluster]. [phase_solve] indexes
    the file before gating and raises [KeyError] at once, having posted
    and logged nothing. [phase_4_interp] takes [cluster_file.get] and
    notices only when it reads a gated row: with no gated row it returns
    with its WAIT status, with one it raises [TypeError] at the first
    row; in neither case is a cluster fitted or a result file written. *)
Theorem missing_cluster_group_is_noticed_late `{SolveRoutines}
  (run : Z) (solver_params : SolverParameters)
  (det_params : DetectorParameters) (inp : SolveInputs)
  (pid : ParticleID) (gas : string) (estimate_df : list EstimateRow) :
  let gated := estimates_gated pid solver_params estimate_df in
  in_pid inp = Some pid ->
  in_target inp = GasTarget gas ->
  in_cluster_file inp = Some None ->
  in_estimates inp = Some estimate_df ->
  phase_solve run solver_params det_params inp sv_init
  = (sv_init, inl (KeyError name_cluster))
  /\ (gated = [] ->
      phase_4_interp run solver_params inp sv_init
      = (mkSolveState 0 [mkStatusMessage run WAIT 100] [] [] [] None, inr tt))
  /\ (gated <> [] ->
      phase_4_interp run solver_params inp sv_init
      = (mkSolveState 1 [] [] [] [] None, inl TypeError)).
Proof.
  intros gated Hpid Htarget Hfile Hest.
  unfold phase_solve, phase_4_interp.
  rewrite Hpid, Htarget, Hfile, Hest. fold gated.
  split; [done|]. split.
  - intros ->. done.
  - intros Hne. destruct gated as [|r rows] eqn:Hg; [done|].
    assert (Hlen : (len (r :: rows) =? 0) = false).
    { apply Z.eqb_neq. unfold len. simpl. lia. }
    rewrite Hlen. cbn [for_each]. unfold solve_row.
    unfold bind, modify, raise, sv_tick. simpl.
    assert (Hf : (int_percent (len (r :: rows)) <? 0) = false).
    { apply Z.ltb_ge. unfold int_percent, len. apply Z.quot_pos; lia. }
    by rewrite Hf.
Qed.

Lemma missing_cluster_group_is_noticed_late_witness :
  @phase_solve sample_solve_routines 1 sample_solver_params
    sample_detector_params
    (mkSolveInputs (Some sample_pid) (GasTarget "gas.json") (Some None)
       (Some sample_estimates))
    sv_init
  = (sv_init, inl (KeyError name_cluster))
  /\ @phase_4_interp sample_solve_routines 1 sample_solver_params
       (mkSolveInputs (Some sample_pid) (GasTarget "gas.json") (Some None)
          (Some sample_estimates))
       sv_init
     = (mkSolveState 1 [] [] [] [] None, inl TypeError).
Proof.
  destruct (@missing_cluster_group_is_noticed_late sample_solve_routines 1
              sample_solver_params sample_detector_params
              (mkSolveInputs (Some sample_pid) (GasTarget "gas.json")
                 (Some None) (Some sample_estimates))
              sample_pid "gas.json" sample_estimates
              eq_refl eq_refl eq_refl eq_refl) as (Hnew & _ & Hold).
  split; [exact Hnew|]. apply Hold. discriminate.
Defined.

(** ** Further properties of the gate *)

Lemma gated_elem pid sp rows r :
  r ∈ estimates_gated pid sp rows ->
  r ∈ rows /\ passes_gate pid sp r = true.
Proof.
  intros Hr. apply unique_event_first_elem in Hr as [Hr _].
  by apply elem_of_gated_input.
Qed.

Lemma gated_covers pid sp rows r' :
  r' ∈ rows -> passes_gate pid sp r' = true ->
  exists r, r ∈ estimates_gated pid sp rows
            /\ est_event r = est_event r'
            /\ (est_polar r' <= est_polar r)%Q.
Proof.
  intros Hr' Hpass.
  assert (Hin : r' ∈ sort_polar_descending
                  (filter (fun r => Is_true (passes_gate pid sp r)) rows))
    by (by apply elem_of_gated_input).
  destruct (unique_event_first_covers _ ∅ r' Hin) as (r & Hr & Hev).
  { apply not_elem_of_empty. }
  exists r. split; [done|]. split; [done|].
  eapply unique_event_first_largest; [|exact Hr|exact Hin|done].
  apply StronglySorted_merge_sort; apply _.
Qed.

Lemma NoDup_events_inj (l : list EstimateRow) r r' :
  NoDup (map est_event l) -> r ∈ l -> r' ∈ l ->
  est_event r = est_event r' -> r = r'.
Proof.
  induction l as [|r0 l IH]; simpl; [by intros _ ?%elem_of_nil|].
  intros [Hout Hnd]%NoDup_cons [->|Hr]%elem_of_cons [->|Hr']%elem_of_cons Hev.
  - done.
  - destruct Hout. rewrite Hev. apply list_elem_of_fmap. by exists r'.
  - destruct Hout. rewrite <- Hev. apply list_elem_of_fmap. by exists r.
  - by apply IH.
Qed.

Lemma gated_event_unique pid sp rows r r' :
  r ∈ estimates_gated pid sp rows -> r' ∈ estimates_gated pid sp rows ->
  est_event r = est_event r' -> r = r'.
Proof. apply NoDup_events_inj, unique_event_first_NoDup. Qed.

(** The choice of the gate does not depend on the order of the rows of
    the estimate table: for two tables with the same rows in any order,
    the gated tables hold the same events, as many rows, and for each
    event a row of the same polar angle. *)
Theorem gating_ignores_the_row_order
  (pid : ParticleID) (solver_params : SolverParameters)
  (rows1 rows2 : list EstimateRow) :
  rows1 ≡ₚ rows2 ->
  (forall r1,
     r1 ∈ estimates_gated pid solver_params rows1 ->
     exists r2,
       r2 ∈ estimates_gated pid solver_params rows2
       /\ est_event r2 = est_event r1
       /\ (est_polar r2 == est_polar r1)%Q)
  /\ length (estimates_gated pid solver_params rows1)
     = length (estimates_gated pid solver_params rows2).
Proof.
  intros Hperm.
  assert (Hmatch : forall ra rb r,
            ra ≡ₚ rb -> r ∈ estimates_gated pid solver_params ra ->
            exists r', r' ∈ estimates_gated pid solver_params rb
                       /\ est_event r' = est_event r
                       /\ (est_polar r' == est_polar r)%Q).
  { intros ra rb r Hab Hr.
    destruct (gated_elem _ _ _ _ Hr) as [Hin Hpass].
    rewrite Hab in Hin.
    destruct (gated_covers pid solver_params rb r Hin Hpass)
      as (r' & Hr' & Hev & Hle).
    destruct (gated_elem _ _ _ _ Hr') as [Hin' Hpass'].
    rewrite <- Hab in Hin'.
    destruct (gated_covers pid solver_params ra r' Hin' Hpass')
      as (r'' & Hr'' & Hev' & Hle').
    assert (r'' = r) as ->.
    { eapply gated_event_unique; [done..|congruence]. }
    exists r'. split; [done|]. split; [done|]. by apply Qle_antisym. }
  split; [intros r1 Hr1; by apply (Hmatch rows1 rows2)|].
  rewrite <- (length_map est_event (estimates_gated pid solver_params rows1)).
  rewrite <- (length_map est_event (estimates_gated pid solver_params rows2)).
  apply Permutation_length, NoDup_Permutation;
    try apply unique_event_first_NoDup.
  intros ev. rewrite !list_elem_of_fmap. split.
  - intros (r & -> & Hr).
    destruct (Hmatch rows1 rows2 r Hperm Hr) as (r' & Hr' & Hev & _).
    by exists r'.
  - intros (r & -> & Hr).
    destruct (Hmatch rows2 rows1 r (symmetry Hperm) Hr) as (r' & Hr' & Hev & _).
    by exists r'.
Qed.

Lemma gating_ignores_the_row_order_witness :
  length (estimates_gated sample_pid sample_solver_params
            (sample_row 4 0 50 1 150 :: sample_row 3 0 5 (1 # 2) 150
             :: sample_row 3 1 5 (3 # 2) 150 :: [sample_row 3 2 5 2 200]))
  = length (estimates_gated sample_pid sample_solver_params
              (sample_row 3 0 5 (1 # 2) 150 :: sample_row 4 0 50 1 150
               :: sample_row 3 1 5 (3 # 2) 150 :: [sample_row 3 2 5 2 200])).
Proof.
  apply (gating_ignores_the_row_order sample_pid sample_solver_params).
  apply perm_swap.
Defined.

(** An empty amplitude window: when [ic_max_val] is not above
    [ic_min_val] no row passes the gate, whatever the estimate table and
    the particle gate, so [phase_solve] skips every run with the warning
    that no event is within the PID. *)
Theorem empty_amplitude_window_skips_every_run `{SolveRoutines}
  (run : Z) (solver_params : SolverParameters)
  (det_params : DetectorParameters) (inp : SolveInputs)
  (pid : ParticleID) (gas : string) (cluster_group : gmap Z EventNode)
  (estimate_df : list EstimateRow) :
  (ic_max_val solver_params <= ic_min_val solver_params)%Q ->
  in_pid inp = Some pid ->
  in_target inp = GasTarget gas ->
  in_cluster_file inp = Some (Some (IsGroup cluster_group)) ->
  in_estimates inp = Some estimate_df ->
  estimates_gated pid solver_params estimate_df = []
  /\ phase_solve run solver_params det_params inp sv_init
     = (mkSolveState 0 [mkStatusMessage run WAIT 0]
          [(WARN, NoEventsWithinPID run)] [] [] None, inr tt).
Proof.
  intros Hwindow Hpid Htarget Hfile Hest.
  assert (Hempty : estimates_gated pid solver_params estimate_df = []).
  { destruct (estimates_gated pid solver_params estimate_df) as [|r l] eqn:Hg;
      [done|].
    assert (Hr : r ∈ estimates_gated pid solver_params estimate_df)
      by (rewrite Hg; left).
    apply gated_elem in Hr as [_ Hpass].
    apply passes_gate_true in Hpass as (_ & Hlo & Hhi).
    exfalso. apply (Qlt_irrefl (ic_min_val solver_params)).
    eapply Qlt_le_trans; [|exact Hwindow]. by eapply Qlt_trans. }
  split; [exact Hempty|].
  unfold phase_solve. rewrite Hpid, Htarget, Hfile, Hest, Hempty. done.
Qed.

Lemma empty_amplitude_window_skips_every_run_witness :
  estimates_gated sample_pid (mkSolverParameters 150 150 "tracks.npy")
    sample_estimates = [].
Proof.
  apply (@empty_amplitude_window_skips_every_run sample_solve_routines 1
           (mkSolverParameters 150 150 "tracks.npy") sample_detector_params
           (sample_solve_inputs sample_estimates) sample_pid "gas.json"
           sample_cluster_file sample_estimates);
    [apply Qle_refl | reflexivity..].
Defined.

Lemma filter_all_pass {A} (P : A -> Prop) `{forall x, Decision (P x)}
  (l : list A) :
  Forall P l -> filter P l = l.
Proof.
  induction 1 as [|x l Hx _ IH]; [done|].
  rewrite filter_cons_True by done. by rewrite IH.
Qed.

Lemma unique_event_first_distinct rows : forall seen,
  NoDup (map est_event rows) ->
  (forall r, r ∈ rows -> est_event r ∉ seen) ->
  unique_event_first seen rows = rows.
Proof.
  induction rows as [|r rows IH]; intros seen Hnd Hseen; simpl; [done|].
  apply NoDup_cons in Hnd as [Hout Hnd].
  rewrite decide_False by (apply Hseen; left).
  rewrite IH; [done|done|].
  intros r' Hr' [Hin|Hin]%elem_of_union.
  - apply elem_of_singleton in Hin. destruct Hout. rewrite <- Hin.
    apply list_elem_of_fmap. by exists r'.
  - by apply (Hseen r'); [right|].
Qed.

(** Gating a gated table keeps all of its rows: the result is the gated
    table again, up to the order of its rows. *)
Theorem gating_a_gated_table_keeps_its_rows
  (pid : ParticleID) (solver_params : SolverParameters)
  (estimate_df : list EstimateRow) :
  estimates_gated pid solver_params
    (estimates_gated pid solver_params estimate_df)
  ≡ₚ estimates_gated pid solver_params estimate_df.
Proof.
  set (gated := estimates_gated pid solver_params estimate_df).
  unfold estimates_gated at 1.
  rewrite filter_all_pass.
  - rewrite unique_event_first_distinct.
    + apply merge_sort_Permutation.
    + unfold sort_polar_descending. rewrite merge_sort_Permutation.
      apply unique_event_first_NoDup.
    + intros r _. apply not_elem_of_empty.
  - apply Forall_forall. intros r Hr.
    apply gated_elem in Hr as [_ Hpass]. by apply Is_true_true.
Qed.

(** ** Status messages of the solve phase *)

(** The status messages of a run of [phase_solve] that fits every gated
    row. With [n] gated rows, fewer than 100, a message is posted every
    second row from the third on, [(n - 1) / 2] in all, each carrying
    [10000 ÷ n]; with 100 rows or more, [(n - 1) / (n ÷ 100 + 1)]
    messages are posted, fewer than one hundred, each carrying 1. No
    WAIT status is posted. *)
Theorem solve_progress_messages `{SolveRoutines}
  (run : Z) (solver_params : SolverParameters)
  (det_params : DetectorParameters) (inp : SolveInputs)
  (pid : ParticleID) (gas : string) (cluster_group : gmap Z EventNode)
  (estimate_df : list EstimateRow) :
  let gated := estimates_gated pid solver_params estimate_df in
  let n := len gated in
  let queue :=
    sv_queue (fst (phase_solve run solver_params det_params inp sv_init)) in
  in_pid inp = Some pid ->
  in_target inp = GasTarget gas ->
  in_cluster_file inp = Some (Some (IsGroup cluster_group)) ->
  in_estimates inp = Some estimate_df ->
  gated <> [] ->
  Forall (fun r => is_Some (stored_cluster cluster_group r)) gated ->
  (n < 100 ->
   queue = replicate (Z.to_nat ((n - 1) / 2))
             (mkStatusMessage run SOLVE (Z.quot 10000 n)))
  /\ (100 <= n ->
      queue = replicate (Z.to_nat ((n - 1) / (Z.quot n 100 + 1)))
                (mkStatusMessage run SOLVE 1)
      /\ (length queue < 100)%nat).
Proof.
  intros gated n queue Hpid Htarget Hfile Hest Hne Hall.
  assert (Hn : 1 <= n).
  { unfold n, len. destruct gated; [done | simpl; lia]. }
  assert (Hq : forall fv pr,
    fv = (if n <? 100 then 1 else int_percent n) ->
    pr = (if n <? 100 then Z.quot 10000 n else 1) ->
    0 <= fv ->
    queue = replicate (Z.to_nat ((n - 1) / (fv + 1)))
              (mkStatusMessage run SOLVE pr)).
  { intros fv pr Hfv Hpr Hpos. unfold queue, phase_solve.
    rewrite Hpid, Htarget, Hfile, Hest. fold gated. fold n.
    rewrite (proj2 (Z.eqb_neq n 0)) by lia. rewrite <- Hfv, <- Hpr.
    match goal with |- context [(?loop ;; ?after) sv_init] =>
      set (body_loop := loop);
      assert (Hafter : sv_queue (fst ((body_loop ;; after) sv_init))
                       = sv_queue (fst (body_loop sv_init)))
    end.
    { unfold bind. by destruct (body_loop sv_init) as [s' [e|[]]]. }
    rewrite Hafter. unfold body_loop.
    match goal with
    |- context [for_each (solve_row _ _ _ _ ?dir ?ion ?ip ?dp)] =>
      destruct (solve_rows_run run fv pr cluster_group dir ion ip dp gated
                  sv_init) as (_ & _ & _ & _ & Hok);
      pose proof (for_each_counter sv_count sv_queue
                    (mkStatusMessage run SOLVE pr) fv
                    (solve_row run fv pr (ret cluster_group) dir ion ip dp))
        as Hcount;
      pose proof (fun r s =>
                    solve_row_run run fv pr cluster_group dir ion ip dp r s)
        as Hrow
    end.
    specialize (Hok Hall).
    match goal with |- context [for_each ?b gated sv_init] =>
      destruct (for_each b gated sv_init) as [s' [e|[]]] eqn:Hloop
    end; [done|].
    destruct (Hcount) with (s := sv_init) (s' := s') (l := gated)
      as [_ Hqueue].
    - intros r s s1 Hr. specialize (Hrow r s).
      destruct (call_of_row cluster_group (Some NONE) r) as [c|].
      + rewrite Hr in Hrow. injection Hrow as ->. simpl.
        unfold sv_tick. by destruct (fv <? sv_count s).
      + destruct Hrow as [e He]. congruence.
    - exact Hloop.
    - simpl. rewrite Hqueue. simpl. f_equal.
      assert (Hlen : (0 < length gated)%nat)
        by (destruct gated; [done | simpl; lia]).
      pose proof (run_counter_emissions fv (length gated) Hpos Hlen) as He.
      fold (len gated) in He. fold n in He. rewrite <- He.
      by rewrite Nat2Z.id. }
  split.
  - intros Hsmall.
    rewrite (Hq 1 (Z.quot 10000 n)); [done| | |lia];
      by rewrite (proj2 (Z.ltb_lt n 100) Hsmall).
  - intros Hbig.
    assert (Hquot : Z.quot n 100 = n / 100)
      by (apply Z.quot_div_nonneg; lia).
    assert (Hpos : 0 <= n / 100) by (apply Z.div_pos; lia).
    assert (Hrep : queue
                   = replicate (Z.to_nat ((n - 1) / (Z.quot n 100 + 1)))
                       (mkStatusMessage run SOLVE 1)).
    { apply (Hq (int_percent n) 1);
        [by rewrite (proj2 (Z.ltb_ge n 100) Hbig)
        |by rewrite (proj2 (Z.ltb_ge n 100) Hbig)
        |unfold int_percent; lia]. }
    split; [exact Hrep|]. rewrite Hrep, length_replicate, Hquot.
    assert ((n - 1) / (n / 100 + 1) < 100).
    { apply Z.div_lt_upper_bound; [lia|].
      pose proof (Z.mul_succ_div_gt n 100 ltac:(lia)). lia. }
    assert (0 <= (n - 1) / (n / 100 + 1)) by (apply Z.div_pos; lia).
    lia.
Qed.

Lemma solve_progress_messages_witness :
  sv_queue
    (fst (@phase_solve sample_solve_routines 1 sample_solver_params
            sample_detector_params
            (mkSolveInputs (Some sample_pid) (GasTarget "gas.json")
               (Some (Some (IsGroup sample_five_cluster_file)))
               (Some sample_five_estimates))
            sv_init))
  = [mkStatusMessage 1 SOLVE 2000; mkStatusMessage 1 SOLVE 2000].
Proof.
  destruct (@solve_progress_messages sample_solve_routines 1
              sample_solver_params sample_detector_params
              (mkSolveInputs (Some sample_pid) (GasTarget "gas.json")
                 (Some (Some (IsGroup sample_five_cluster_file)))
                 (Some sample_five_estimates))
              sample_pid "gas.json" sample_five_cluster_file
              sample_five_estimates
              eq_refl eq_refl eq_refl eq_refl ltac:(discriminate))
    as [Hsmall _].
  - repeat constructor; by eexists.
  - apply Hsmall. reflexivity.
Defined.

(** ** The point-cloud phase reads nothing outside its event range *)

(** [phase_pointcloud] reads the [get] and the [frib/evt] group only at
    the events of the range given by the [meta] dataset: two pairs of
    groups that agree on that range give the same run. *)
Theorem point_cloud_phase_reads_only_its_range `{PointcloudRoutines}
  (run : Z) (frib_params : FribParameters)
  (detector_params : DetectorParameters)
  (meta_data : option (list Z)) (min_event max_event : Z)
  (get1 get2 evt1 evt2 : gmap Z RawData) (scaler : option (H5Node RawData)) :
  let trace_file get evt :=
    Some (mkTraceFile meta_data (Some (IsGroup get))
            (Some (IsGroup (mkFribGroup (Some (IsGroup evt)) scaler)))) in
  get_event_range (mkTraceFile meta_data None None)
  = inr (min_event, max_event) ->
  (forall idx, min_event <= idx <= max_event ->
               get1 !! idx = get2 !! idx /\ evt1 !! idx = evt2 !! idx) ->
  phase_pointcloud run frib_params detector_params (trace_file get1 evt1)
    p1_init
  = phase_pointcloud run frib_params detector_params (trace_file get2 evt2)
      p1_init.
Proof.
  intros trace_file Hmeta Hsame. unfold trace_file, phase_pointcloud.
  rewrite !bind_modify. unfold get_event_range in *. simpl in *.
  rewrite Hmeta. destruct scaler as [sc|]; [|done].
  unfold bind at 1 3.
  rewrite (for_each_ext
             (phase_pointcloud_event run frib_params detector_params
                (int_percent (max_event - min_event))
                (if do_garfield_correction detector_params
                 then Some create_electron_corrector else None) get1 evt1)
             (phase_pointcloud_event run frib_params detector_params
                (int_percent (max_event - min_event))
                (if do_garfield_correction detector_params
                 then Some create_electron_corrector else None) get2 evt2));
    [done|].
  intros idx s Hidx. apply elem_of_range in Hidx.
  destruct (Hsame idx ltac:(lia)) as [Hg He].
  unfold phase_pointcloud_event. by rewrite Hg, He.
Qed.

Lemma point_cloud_phase_reads_only_its_range_witness :
  @phase_pointcloud sample_pointcloud_routines 1 sample_frib_params
    sample_detector_params
    (Some (mkTraceFile (Some [5; 4; 8])
             (Some (IsGroup (<[20 := [[1; 1; 1]]]> sample_event_group)))
             (Some (IsGroup
                      (mkFribGroup (Some (IsGroup sample_frib_evt_group))
                         (Some (IsGroup []))))))) p1_init
  = @phase_pointcloud sample_pointcloud_routines 1 sample_frib_params
      sample_detector_params (Some sample_trace_file) p1_init.
Proof.
  apply (@point_cloud_phase_reads_only_its_range sample_pointcloud_routines
           1 sample_frib_params sample_detector_params (Some [5; 4; 8]) 5 8
           (<[20 := [[1; 1; 1]]]> sample_event_group) sample_event_group
           sample_frib_evt_group sample_frib_evt_group
           (Some (IsGroup []))).
  - reflexivity.
  - intros idx Hidx. split; [|reflexivity]. apply lookup_insert_ne. lia.
Defined.
